(** * Midea dehumidifier (LAN) integration: config flow and humidifier entity

    A shallow embedding of
    [custom_components/midea_dehumidifier_lan/humidifier.py] and
    [custom_components/midea_dehumidifier_lan/config_flow.py], and the
    properties of the setup wizard and of the mode mapping proved on it. *)

From Stdlib Require Import ZArith Ascii String List Bool Lia.
From stdpp Require Import base option list strings gmap.

Local Open Scope string_scope.
Local Open Scope Z_scope.

(** ** Python idioms shared by both modules *)

(** Truthiness of an optional string: [None] and [""] are falsy. *)
Definition truthy (o : option string) : bool :=
  match o with
  | Some s => negb (String.eqb s "")
  | None => false
  end.

(** [x or d] on an optional string (the result of [dict.get]). *)
Definition or_str (o : option string) (d : string) : string :=
  match o with
  | Some s => if String.eqb s "" then d else s
  | None => d
  end.

(** [x or d] on an optional integer: [None] and [0] are falsy. *)
Definition or_int (o : option Z) (d : Z) : Z :=
  match o with
  | Some z => if z =? 0 then d else z
  | None => d
  end.

(** Records handed to [_LOGGER]. *)
Inductive LogArg :=
| ArgInt (z : Z)
| ArgStr (s : string)
| ArgNone.

Inductive LogLevel := DEBUG | WARNING | ERROR.

Record LogRecord := mkLog { level : LogLevel; msg : string; args : list LogArg }.

(** ** humidifier.py *)

Module Humidifier.

Definition MODE_SET : string := "Set".
Definition MODE_DRY : string := "Dry".
Definition MODE_SMART : string := "Smart".
Definition MODE_CONTINOUS : string := "Continuous".
Definition MODE_PURIFIER : string := "Purifier".
Definition MODE_ANTIMOULD : string := "Antimould".
Definition MODE_FAN : string := "Fan".


(** The appliance state is an attribute store read with [getattr] and a
    default; booleans are the integers 0 and 1, as in Python. *)
Record DehumidifierEntity := mkEntity {
  state : gmap string Z;
  modes : list string
}.

Definition getattr (st : gmap string Z) (attr : string) (dflt : Z) : Z :=
  default dflt (st !! attr).

(** Modelled from the spec: [apply] is a method of [ApplianceEntity], which
    is not among the sources; section 6 describes it as the single write
    operation [apply(attributeName, value)] on the appliance state object. *)
Definition apply (self : DehumidifierEntity) (attr : string) (value : Z)
  : DehumidifierEntity :=
  {| state := <[attr := value]> (state self); modes := modes self |}.

(** [__init__]: the list of modes offered, from the [supports] mapping. *)
Definition init_modes (supports : gmap string Z) : list string :=
  let m0 := [MODE_SET] in
  let m1 := if getattr supports "auto" 0 =? 0 then m0 else (m0 ++ [MODE_SMART])%list in
  let m2 := (m1 ++ [MODE_CONTINOUS])%list in
  let m3 := if getattr supports "dry_clothes" 0 =? 0 then m2 else (m2 ++ [MODE_DRY])%list in
  let more_modes := supports !! "mode" in
  match more_modes with
  | Some 1 => (m3 ++ [MODE_PURIFIER])%list
  | Some 2 => (m3 ++ [MODE_ANTIMOULD])%list
  | Some 3 => (m3 ++ [MODE_PURIFIER; MODE_ANTIMOULD])%list
  | Some 4 => (m3 ++ [MODE_FAN])%list
  | _ => m3
  end.




(** The [mode] property: the label and what was logged. *)
Definition mode (self : DehumidifierEntity) : string * list LogRecord :=
  let curr_mode := getattr (state self) "mode" 1 in
  if curr_mode =? 1 then (MODE_SET, [])
  else if curr_mode =? 2 then (MODE_CONTINOUS, [])
  else if curr_mode =? 3 then (MODE_SMART, [])
  else if curr_mode =? 4 then (MODE_DRY, [])
  else if curr_mode =? 6 then (MODE_PURIFIER, [])
  else if curr_mode =? 7 then (MODE_ANTIMOULD, [])
  else (MODE_SET, [mkLog WARNING "Unknown mode %d" [ArgInt curr_mode]]).



(** [set_mode]: the integer handed to [apply] and what was logged. *)
Definition set_mode_code (mode : string) : Z * list LogRecord :=
  if String.eqb mode MODE_SET then (1, [])
  else if String.eqb mode MODE_CONTINOUS then (2, [])
  else if String.eqb mode MODE_SMART then (3, [])
  else if String.eqb mode MODE_DRY then (4, [])
  else if String.eqb mode MODE_PURIFIER then (6, [])
  else if String.eqb mode MODE_ANTIMOULD then (7, [])
  else (1, [mkLog WARNING "Unsupported dehumidifer mode %s" [ArgStr mode]]).

Definition set_mode (self : DehumidifierEntity) (mode : string)
  : DehumidifierEntity * list LogRecord :=
  let '(curr_mode, logged) := set_mode_code mode in
  (apply self "mode" curr_mode, logged).


(** The six integers that have a label of their own. *)
Definition known_mode (z : Z) : bool :=
  (z =? 1) || (z =? 2) || (z =? 3) || (z =? 4) || (z =? 6) || (z =? 7).

Definition labels : list string :=
  [MODE_SET; MODE_CONTINOUS; MODE_SMART; MODE_DRY; MODE_PURIFIER; MODE_ANTIMOULD].

End Humidifier.

(** ** config_flow.py: data *)

Module ConfigFlow.

(** [midea_beautiful_dehumidifier.lan.LanDevice], as far as the flow reads
    and writes it. [ip] is [None] for an appliance known to the cloud that
    was not found on the network. *)
Module Lan.
Record LanDevice := mk {
  id : string;
  ip : option string;
  name : string;
  type : string;
  token : string;
  key : string
}.
Definition set_ip (v : option string) (a : LanDevice) : LanDevice :=
  mk (id a) v (name a) (type a) (token a) (key a).
Definition set_name (v : string) (a : LanDevice) : LanDevice :=
  mk (id a) (ip a) v (type a) (token a) (key a).
Definition set_token (v : string) (a : LanDevice) : LanDevice :=
  mk (id a) (ip a) (name a) (type a) v (key a).
Definition set_key (v : string) (a : LanDevice) : LanDevice :=
  mk (id a) (ip a) (name a) (type a) (token a) v.
End Lan.
Export Lan(LanDevice).

(** One element of [CONF_DEVICES]: the dictionary literal of
    [_async_add_entry], a field per key. *)
Module Dev.
Record DeviceConf := mk {
  ip_address : string;
  id : string;
  name : string;
  type : string;
  token : string;
  token_key : string
}.
End Dev.
Export Dev(DeviceConf).

(** The dictionaries of the flow ([user_input], [self._conf], the defaults
    of a form schema) have a fixed set of keys: a field per key, [None]
    for a key that is not in the dictionary. *)
Record Dict := mkDict {
  CONF_USERNAME : option string;
  CONF_PASSWORD : option string;
  CONF_MOBILE_APP : option string;
  CONF_ADVANCED_OPTIONS : option bool;
  CONF_APPKEY : option string;
  CONF_APPID : option Z;
  CONF_NETWORK_RANGE : option string;
  CONF_IGNORE_APPLIANCE : option bool;
  CONF_IP_ADDRESS : option string;
  CONF_NAME : option string;
  CONF_TOKEN : option string;
  CONF_TOKEN_KEY : option string;
  CONF_DEVICES : option (list DeviceConf)
}.

Definition empty_dict : Dict :=
  mkDict None None None None None None None None None None None None None.

Definition set_CONF_APPKEY (v : string) (d : Dict) : Dict :=
  mkDict (CONF_USERNAME d) (CONF_PASSWORD d) (CONF_MOBILE_APP d)
    (CONF_ADVANCED_OPTIONS d) (Some v) (CONF_APPID d) (CONF_NETWORK_RANGE d)
    (CONF_IGNORE_APPLIANCE d) (CONF_IP_ADDRESS d) (CONF_NAME d) (CONF_TOKEN d)
    (CONF_TOKEN_KEY d) (CONF_DEVICES d).

Definition set_CONF_APPID (v : Z) (d : Dict) : Dict :=
  mkDict (CONF_USERNAME d) (CONF_PASSWORD d) (CONF_MOBILE_APP d)
    (CONF_ADVANCED_OPTIONS d) (CONF_APPKEY d) (Some v) (CONF_NETWORK_RANGE d)
    (CONF_IGNORE_APPLIANCE d) (CONF_IP_ADDRESS d) (CONF_NAME d) (CONF_TOKEN d)
    (CONF_TOKEN_KEY d) (CONF_DEVICES d).

Definition set_CONF_NETWORK_RANGE (v : string) (d : Dict) : Dict :=
  mkDict (CONF_USERNAME d) (CONF_PASSWORD d) (CONF_MOBILE_APP d)
    (CONF_ADVANCED_OPTIONS d) (CONF_APPKEY d) (CONF_APPID d) (Some v)
    (CONF_IGNORE_APPLIANCE d) (CONF_IP_ADDRESS d) (CONF_NAME d) (CONF_TOKEN d)
    (CONF_TOKEN_KEY d) (CONF_DEVICES d).

Definition set_CONF_DEVICES (v : list DeviceConf) (d : Dict) : Dict :=
  mkDict (CONF_USERNAME d) (CONF_PASSWORD d) (CONF_MOBILE_APP d)
    (CONF_ADVANCED_OPTIONS d) (CONF_APPKEY d) (CONF_APPID d) (CONF_NETWORK_RANGE d)
    (CONF_IGNORE_APPLIANCE d) (CONF_IP_ADDRESS d) (CONF_NAME d) (CONF_TOKEN d)
    (CONF_TOKEN_KEY d) (Some v).

(** An entry of [SUPPORTED_APPS]. *)
Record AppEntry := mkApp { app_appkey : string; app_appid : Z }.

(** The cloud session is an opaque handle. *)
Inductive MideaCloud := CloudSession (handle : Z).

(** What [connect_to_cloud] can do: return a session, return [None], or
    raise [CloudAuthenticationError]. *)
Inductive ConnectResult :=
| Connected (cloud : MideaCloud)
| NoCloud
| AuthFailed (error_code : string) (message : string).

Inductive Exn :=
| FlowException (message : string) (cause : option string)
| CloudAuthenticationError (error_code : string) (message : string)
| KeyError (k : string)
| IndexError
| TypeError
| RecursionError.

(** Calls that leave the flow, in the order they are made. *)
Inductive Event :=
| CallConnect (account password appkey : string) (appid : Z)
| CallFind (cloud : MideaCloud) (networks : list string)
| CallProbe (ip : string) (cloud : option MideaCloud)
| Logged (r : LogRecord).

Record Placeholders := mkPlaceholders {
  TAG_CAUSE : string;
  TAG_INTEGRATION : string;
  TAG_ID : option string;
  TAG_NAME : option string
}.

(** A flow result: [data_schema] holds the default of each field. *)
Inductive FlowResult :=
| ShowForm (step_id : string) (data_schema : Dict)
           (description_placeholders : Placeholders) (errors : option string)
| Abort (reason : string)
| CreateEntry (title : string) (data : Dict).

(** The host's configuration entries and scheduled tasks. *)
Record ConfigEntry := mkEntry {
  entry_id : string;
  unique_id : option string;
  entry_data : Dict
}.

Inductive Task := Reload (entry_id : string).

Record Hass := mkHass {
  config_entries : list ConfigEntry;
  tasks : list Task
}.

(** [MideaLocalConfigFlow]: the attributes set by [__init__], and the
    unique id the host keeps in the flow's context. *)
Record Flow := mkFlow {
  _cloud : option MideaCloud;
  _appliance_idx : Z;
  _appliances : list LanDevice;
  _appliance_conf : list DeviceConf;
  _conf : option Dict;
  _advanced_options : bool;
  _cause : option string;
  context_unique_id : option string
}.

Definition __init__ : Flow :=
  mkFlow None (-1) [] [] (Some empty_dict) false None None.

Record World := mkWorld {
  self : Flow;
  hass : Hass;
  trace : list Event
}.

(** What lies outside the two source files: the constants of [const.py]
    and of [midea_beautiful_dehumidifier.midea], the cloud and LAN
    collaborators, and the parsers of [ipaddress]. *)
Class Externals := {
  IGNORED_IP_ADDRESS : string;
  NAME : string;
  DEFAULT_USERNAME : string;
  DEFAULT_PASSWORD : string;
  DEFAULT_APP : string;
  DEFAULT_APPKEY : string;
  DEFAULT_APP_ID : Z;
  SUPPORTED_APPS : gmap string AppEntry;
  connect_to_cloud : string -> string -> string -> Z -> ConnectResult;
  find_appliances : MideaCloud -> list string -> list LanDevice;
  get_appliance_state : string -> option MideaCloud -> option LanDevice;
  LanDevice_update : LanDevice -> LanDevice -> LanDevice;
  IPv4Address : string -> bool;
  IPv4Network : string -> bool
}.

(** ** A state and exception monad

    A computation takes the state and returns a value or the exception it
    raised, with the state at that point: what a Python function has
    mutated before it raises stays mutated. *)

Definition St (S A : Type) : Type := S -> (Exn + A) * S.

Definition ret {S A} (a : A) : St S A := fun s => (inr a, s).

Definition bind {S A B} (m : St S A) (k : A -> St S B) : St S B :=
  fun s => match m s with
           | (inr a, s') => k a s'
           | (inl e, s') => (inl e, s')
           end.

Definition raise {S A} (e : Exn) : St S A := fun s => (inl e, s).

Definition get {S} : St S S := fun s => (inr s, s).

Definition modify {S} (f : S -> S) : St S unit := fun s => (inr tt, f s).

(** [try: m except ...: h]: [h] says which exceptions it handles. *)
Definition try_except {S A} (m : St S A) (h : Exn -> option (St S A)) : St S A :=
  fun s => match m s with
           | (inr a, s') => (inr a, s')
           | (inl e, s') => match h e with
                            | Some k => k s'
                            | None => (inl e, s')
                            end
           end.

Notation "'let*' x ':=' c 'in' k" := (bind c (fun x => k))
  (at level 10, x name, c at level 200, k at level 200).
Notation "c ;;; k" := (bind c (fun _ => k))
  (at level 100, k at level 200, right associativity).

Abbreviation M := (St World).

(** [d[k]] on a dictionary field. *)
Definition getitem {S A} (k : string) (o : option A) : St S A :=
  match o with
  | Some v => ret v
  | None => raise (KeyError k)
  end.

(** [l[i]] with Python's negative indices. *)
Definition py_index {A} (l : list A) (i : Z) : option nat :=
  let n := Z.of_nat (length l) in
  if (0 <=? i) && (i <? n) then Some (Z.to_nat i)
  else if (i <? 0) && (0 <=? i + n) then Some (Z.to_nat (i + n))
  else None.

Definition self_get : M Flow := fun w => (inr (self w), w).

Definition self_modify (f : Flow -> Flow) : M unit :=
  modify (fun w => mkWorld (f (self w)) (hass w) (trace w)).

Definition emit (e : Event) : M unit :=
  modify (fun w => mkWorld (self w) (hass w) (trace w ++ [e])%list).

Definition set_cloud (v : option MideaCloud) (f : Flow) : Flow :=
  mkFlow v (_appliance_idx f) (_appliances f) (_appliance_conf f) (_conf f)
    (_advanced_options f) (_cause f) (context_unique_id f).
Definition set_appliance_idx (v : Z) (f : Flow) : Flow :=
  mkFlow (_cloud f) v (_appliances f) (_appliance_conf f) (_conf f)
    (_advanced_options f) (_cause f) (context_unique_id f).
Definition set_appliances (v : list LanDevice) (f : Flow) : Flow :=
  mkFlow (_cloud f) (_appliance_idx f) v (_appliance_conf f) (_conf f)
    (_advanced_options f) (_cause f) (context_unique_id f).
Definition set_appliance_conf (v : list DeviceConf) (f : Flow) : Flow :=
  mkFlow (_cloud f) (_appliance_idx f) (_appliances f) v (_conf f)
    (_advanced_options f) (_cause f) (context_unique_id f).
Definition set_conf (v : option Dict) (f : Flow) : Flow :=
  mkFlow (_cloud f) (_appliance_idx f) (_appliances f) (_appliance_conf f) v
    (_advanced_options f) (_cause f) (context_unique_id f).
Definition set_advanced_options (v : bool) (f : Flow) : Flow :=
  mkFlow (_cloud f) (_appliance_idx f) (_appliances f) (_appliance_conf f)
    (_conf f) v (_cause f) (context_unique_id f).
Definition set_cause (v : option string) (f : Flow) : Flow :=
  mkFlow (_cloud f) (_appliance_idx f) (_appliances f) (_appliance_conf f)
    (_conf f) (_advanced_options f) v (context_unique_id f).
Definition set_context_unique_id (v : option string) (f : Flow) : Flow :=
  mkFlow (_cloud f) (_appliance_idx f) (_appliances f) (_appliance_conf f)
    (_conf f) (_advanced_options f) (_cause f) v.

(** [self._conf[...] = ...]: [self._conf] is a dictionary here. *)
Definition conf_modify (f : Dict -> Dict) : M unit :=
  self_modify (fun fl => set_conf (f <$> _conf fl) fl).

(** [self._conf] where the code subscripts it. *)
Definition conf_get : M Dict :=
  let* fl := self_get in
  match _conf fl with
  | Some c => ret c
  | None => raise TypeError
  end.


(** ** config_flow.py: functions *)

Section Functions.
Context `{Externals}.

(** [connect_and_discover]: validates the cloud credentials and discovers
    the local appliances. *)
Definition connect_and_discover : M unit :=
  let* conf := conf_get in
  let* account := getitem "username" (CONF_USERNAME conf) in
  let* password := getitem "password" (CONF_PASSWORD conf) in
  let* appkey := getitem "appkey" (CONF_APPKEY conf) in
  let* appid := getitem "appid" (CONF_APPID conf) in
  emit (CallConnect account password appkey appid) ;;;
  match connect_to_cloud account password appkey appid with
  | AuthFailed code m => raise (CloudAuthenticationError code m)
  | NoCloud => raise (FlowException "no_cloud" None)
  | Connected cloud =>
      let networks :=
        match CONF_NETWORK_RANGE conf with
        | Some s => if String.eqb s "" then [] else [s]
        | None => []
        end in
      emit (CallFind cloud networks) ;;;
      self_modify (set_appliances (find_appliances cloud networks)) ;;;
      self_modify (set_cloud (Some cloud))
  end.

(** [validate_appliance]: runs on the appliance object and the trace of
    outside calls; the appliance is updated in place on success. *)
Definition validate_appliance (cloud : option MideaCloud)
  : St (LanDevice * list Event) bool :=
  fun '(appliance, tr) =>
    match Lan.ip appliance with
    | None =>
        (inr true,
         (appliance,
          tr ++ [Logged (mkLog DEBUG "Ignored appliance with id=%s"
                           [ArgStr (Lan.id appliance)])])%list)
    | Some addr =>
        if String.eqb addr IGNORED_IP_ADDRESS then
          (inr true,
           (appliance,
            tr ++ [Logged (mkLog DEBUG "Ignored appliance with id=%s"
                             [ArgStr (Lan.id appliance)])])%list)
        else if IPv4Address addr then
          let tr' := (tr ++ [CallProbe addr cloud])%list in
          match get_appliance_state addr cloud with
          | Some discovered => (inr true, (LanDevice_update appliance discovered, tr'))
          | None => (inl (FlowException "not_discovered" (Some addr)), (appliance, tr'))
          end
        else (inl (FlowException "invalid_ip_address" (Some addr)), (appliance, tr))
    end.

(** [placeholders]. *)
Definition placeholders (appliance : option LanDevice) : M Placeholders :=
  let* fl := self_get in
  let cause := or_str (_cause fl) "" in
  ret match appliance with
      | Some a => mkPlaceholders cause NAME (Some (Lan.id a)) (Some (Lan.name a))
      | None => mkPlaceholders cause NAME None None
      end.

(** The host's [async_set_unique_id]: records the unique id of the flow
    and returns the entry of this integration that has it, if any. *)
Definition async_set_unique_id (uid : string) : M (option ConfigEntry) :=
  self_modify (set_context_unique_id (Some uid)) ;;;
  fun w =>
    (inr (List.find (fun e => bool_decide (unique_id e = Some uid))
                    (config_entries (hass w))), w).

(** The host's [config_entries.async_update_entry(entry, data=...)]. *)
Definition async_update_entry (entry : ConfigEntry) (data : Dict) : M unit :=
  modify (fun w =>
    mkWorld (self w)
      (mkHass
         (map (fun e => if String.eqb (entry_id e) (entry_id entry)
                        then mkEntry (entry_id e) (unique_id e) data
                        else e)
              (config_entries (hass w)))
         (tasks (hass w)))
      (trace w)).

(** The host's [async_create_task]. *)
Definition async_create_task (t : Task) : M unit :=
  modify (fun w =>
    mkWorld (self w)
      (mkHass (config_entries (hass w)) (tasks (hass w) ++ [t])%list)
      (trace w)).

(** The loop of [_async_add_entry] over [self._appliances]. *)
Definition append_appliance_conf (acc : list DeviceConf) (appliance : LanDevice)
  : list DeviceConf :=
  match Lan.ip appliance with
  | Some addr =>
      if negb (String.eqb addr "") && negb (String.eqb addr IGNORED_IP_ADDRESS)
      then (acc ++ [Dev.mk addr (Lan.id appliance) (Lan.name appliance)
                      (Lan.type appliance) (Lan.token appliance)
                      (Lan.key appliance)])%list
      else acc
  | None => acc
  end.

Definition _async_add_entry : M FlowResult :=
  let* fl := self_get in
  match _conf fl with
  | Some _ =>
      self_modify (set_appliance_conf []) ;;;
      self_modify (fun fl =>
        set_appliance_conf
          (fold_left append_appliance_conf (_appliances fl) (_appliance_conf fl)) fl) ;;;
      let* conf := conf_get in
      let* username := getitem "username" (CONF_USERNAME conf) in
      let* existing_entry := async_set_unique_id username in
      let* fl := self_get in
      conf_modify (set_CONF_DEVICES (_appliance_conf fl)) ;;;
      let* conf := conf_get in
      match existing_entry with
      | Some entry =>
          async_update_entry entry conf ;;;
          async_create_task (Reload (entry_id entry)) ;;;
          ret (Abort "reauth_successful")
      | None => ret (CreateEntry "Midea Dehumidifiers" conf)
      end
  | None =>
      emit (Logged (mkLog ERROR
              "Configuration should have been set before reaching this!" [])) ;;;
      raise (FlowException "unexpected_state" None)
  end.

(** The object bound to the local [appliance] is an element of
    [self._appliances]: it is named by its position, reads and attribute
    writes go through the list. *)
Definition appliances_getitem : M nat :=
  let* fl := self_get in
  match py_index (_appliances fl) (_appliance_idx fl) with
  | Some i => ret i
  | None => raise IndexError
  end.

Definition appliance_at (i : nat) : M LanDevice :=
  let* fl := self_get in
  match _appliances fl !! i with
  | Some a => ret a
  | None => raise IndexError
  end.

Definition appliance_setattr (i : nat) (f : LanDevice -> LanDevice) : M unit :=
  self_modify (fun fl => set_appliances (alter f i (_appliances fl)) fl).

(** [async_add_executor_job(validate_appliance, self._cloud, appliance)]. *)
Definition run_validate_appliance (i : nat) : M bool :=
  fun w =>
    match _appliances (self w) !! i with
    | None => (inl IndexError, w)
    | Some a =>
        let '(r, (a', tr')) := validate_appliance (_cloud (self w)) (a, trace w) in
        (r, mkWorld (set_appliances (<[i := a']> (_appliances (self w))) (self w))
                    (hass w) tr')
    end.

Definition appliances_len (fl : Flow) : Z := Z.of_nat (length (_appliances fl)).

(** The [while] loop of [async_step_unreachable_appliance]: [Some] is the
    value returned from inside the loop, [None] is leaving the loop. *)
Fixpoint find_next_unreachable (step_again : M FlowResult) (fuel : nat)
  : M (option FlowResult) :=
  match fuel with
  | O => ret None
  | S fuel' =>
      let* fl := self_get in
      if _appliance_idx fl <? appliances_len fl then
        let* i := appliances_getitem in
        let* a := appliance_at i in
        match Lan.ip a with
        | None => let* r := step_again in ret (Some r)
        | Some _ =>
            self_modify (fun fl => set_appliance_idx (_appliance_idx fl + 1) fl) ;;;
            find_next_unreachable step_again fuel'
        end
      else ret None
  end.

(** The form of [async_step_unreachable_appliance] (its last statement). *)
Definition unreachable_appliance_form (i : nat) (errors : option string)
  : M FlowResult :=
  let* appliance := appliance_at i in
  let name := Lan.name appliance in
  let* ph := placeholders (Some appliance) in
  ret (ShowForm "unreachable_appliance"
         (mkDict None None None None None None None
            (Some false) (Some IGNORED_IP_ADDRESS) (Some name) None None None)
         ph errors).

(** The [try] statement of [async_step_unreachable_appliance] and the form
    that follows it: validation of the appliance just filled in, the
    search for the next unreachable appliance, and the redisplay on
    [FlowException]. [step_again] is the call the step makes to itself. *)
Definition validate_and_advance (step_again : M FlowResult) (appliance : nat)
  : M FlowResult :=
  let* r :=
    try_except
      (run_validate_appliance appliance ;;;
       (* Find next unreachable appliance *)
       self_modify (fun fl => set_appliance_idx (_appliance_idx fl + 1) fl) ;;;
       let* fl := self_get in
       let* found :=
         find_next_unreachable step_again
           (Z.to_nat (appliances_len fl - _appliance_idx fl)) in
       match found with
       | Some res => ret (inl res)
       | None =>
           (* If no unreachable appliances, create entry *)
           let* fl := self_get in
           if appliances_len fl <=? _appliance_idx fl then
             let* res := _async_add_entry in ret (inl res)
           else
             let* j := appliances_getitem in ret (inr (j, None))
       end)
      (fun e =>
         match e with
         | FlowException message cause =>
             Some (self_modify (set_cause cause) ;;;
                   ret (inr (appliance, Some message)))
         | _ => None
         end) in
  match r with
  | inl res => ret res
  | inr (j, errors) => unreachable_appliance_form j errors
  end.

(** [async_step_unreachable_appliance], with the call it makes to itself
    as a parameter. *)
Definition async_step_unreachable_appliance_ (step_again : M FlowResult)
    (user_input : option Dict) : M FlowResult :=
  self_modify (set_cause (Some "")) ;;;
  let* appliance := appliances_getitem in
  match user_input with
  | Some ui =>
      appliance_setattr appliance (Lan.set_ip (CONF_IP_ADDRESS ui)) ;;;
      let* a := appliance_at appliance in
      (if truthy (Lan.ip a) then ret tt
       else appliance_setattr appliance (Lan.set_ip (Some IGNORED_IP_ADDRESS))) ;;;
      let* name := getitem "name" (CONF_NAME ui) in
      appliance_setattr appliance (Lan.set_name name) ;;;
      appliance_setattr appliance (Lan.set_token (default "" (CONF_TOKEN ui))) ;;;
      appliance_setattr appliance (Lan.set_key (default "" (CONF_TOKEN_KEY ui))) ;;;
      validate_and_advance step_again appliance
  | None => unreachable_appliance_form appliance None
  end.

(** The call the step makes to itself passes no input and makes no further
    call. *)
Definition async_step_unreachable_appliance : option Dict -> M FlowResult :=
  async_step_unreachable_appliance_
    (async_step_unreachable_appliance_ (raise RecursionError) None).

(** [async_step_advanced_options], with [_validate_discovery_phase] as a
    parameter. *)
Definition async_step_advanced_options_
    (validate : option Dict -> M FlowResult) (user_input : option Dict)
  : M FlowResult :=
  self_modify (set_cause (Some "")) ;;;
  self_modify (set_advanced_options true) ;;;
  let* conf := conf_get in
  let username := or_str (CONF_USERNAME conf) DEFAULT_USERNAME in
  let password := or_str (CONF_PASSWORD conf) DEFAULT_PASSWORD in
  let show (username password appkey : string) (appid : Z)
           (network_range : string) (errors : option string) : M FlowResult :=
    let* ph := placeholders None in
    ret (ShowForm "advanced_options"
           (mkDict (Some username) (Some password) None None (Some appkey)
              (Some appid) (Some network_range) None None None None None None)
           ph errors) in
  match user_input with
  | Some ui =>
      let username := or_str (CONF_USERNAME ui) username in
      let password := or_str (CONF_PASSWORD ui) password in
      let appkey := or_str (CONF_APPKEY ui) DEFAULT_APPKEY in
      let appid := or_int (CONF_APPID ui) DEFAULT_APP_ID in
      let network_range := or_str (CONF_NETWORK_RANGE ui) "" in
      try_except (validate (Some ui))
        (fun e =>
           match e with
           | FlowException message cause =>
               Some (self_modify (set_cause cause) ;;;
                     show username password appkey appid network_range (Some message))
           | CloudAuthenticationError error_code message =>
               Some (self_modify (set_cause (Some (error_code ++ " - " ++ message)%string)) ;;;
                     show username password appkey appid network_range
                       (Some "invalid_auth"))
           | _ => None
           end)
  | None => show username password DEFAULT_APPKEY DEFAULT_APP_ID "" None
  end.

(** The [for ... enumerate ... break] of [_validate_discovery_phase]: the
    position of the first appliance whose [ip] is falsy. *)
Fixpoint first_without_ip (i : Z) (l : list LanDevice) : option Z :=
  match l with
  | [] => None
  | appliance :: l' =>
      if negb (truthy (Lan.ip appliance)) then Some i
      else first_without_ip (i + 1) l'
  end.

(** The end of [_validate_discovery_phase]: discovery, the search for the
    first appliance without an address, and the step that follows. *)
Definition discover_and_continue : M FlowResult :=
  self_modify (set_appliance_idx (-1)) ;;;
  connect_and_discover ;;;
  self_modify (fun fl =>
    match first_without_ip 0 (_appliances fl) with
    | Some i => set_appliance_idx i fl
    | None => fl
    end) ;;;
  let* fl := self_get in
  if 0 <=? _appliance_idx fl then async_step_unreachable_appliance None
  else _async_add_entry.

(** [_validate_discovery_phase], with the call to
    [async_step_advanced_options()] as a parameter; [returned] is the
    value of the [return] inside the branches, if one is reached. *)
Definition _validate_discovery_phase_ (step_advanced : M FlowResult)
    (user_input : option Dict) : M FlowResult :=
  let* fl := self_get in
  let* returned :=
    if _advanced_options fl then
      match _conf fl, user_input with
      | Some _, Some ui =>
          if negb (bool_decide (is_Some (CONF_APPKEY ui)))
             || negb (bool_decide (is_Some (CONF_APPID ui)))
          then raise (FlowException "invalid_appkey" None)
          else
            let* appkey := getitem "appkey" (CONF_APPKEY ui) in
            conf_modify (set_CONF_APPKEY appkey) ;;;
            let* appid := getitem "appid" (CONF_APPID ui) in
            conf_modify (set_CONF_APPID appid) ;;;
            match CONF_NETWORK_RANGE ui with
            | Some network_range =>
                if String.eqb network_range "" then ret None
                else if IPv4Network network_range then
                  conf_modify (set_CONF_NETWORK_RANGE network_range) ;;; ret None
                else raise (FlowException "invalid_ip_range" (Some network_range))
            | None => ret None
            end
      | _, _ =>
          emit (Logged (mkLog ERROR
                  "Expected previous input when on advanced options page" [])) ;;;
          raise (FlowException "invalid_state" None)
      end
    else
      match user_input with
      | None =>
          emit (Logged (mkLog ERROR "Expected user input" [])) ;;;
          raise (FlowException "invalid_state" None)
      | Some ui =>
          self_modify (set_conf (Some ui)) ;;;
          (if truthy (CONF_MOBILE_APP ui) then
             let* app := getitem "mobile_app" (CONF_MOBILE_APP ui) in
             match SUPPORTED_APPS !! app with
             | Some apps =>
                 conf_modify (set_CONF_APPKEY (app_appkey apps)) ;;;
                 conf_modify (set_CONF_APPID (app_appid apps))
             | None => raise (FlowException "invalid_app_name" (Some app))
             end
           else
             conf_modify (set_CONF_APPKEY DEFAULT_APPKEY) ;;;
             conf_modify (set_CONF_APPID DEFAULT_APP_ID)) ;;;
          let* advanced := getitem "advanced_options" (CONF_ADVANCED_OPTIONS ui) in
          if (advanced : bool) then let* r := step_advanced in ret (Some r)
          else ret None
      end in
  match returned with
  | Some r => ret r
  | None => discover_and_continue
  end.

Definition _validate_discovery_phase : option Dict -> M FlowResult :=
  _validate_discovery_phase_
    (async_step_advanced_options_ (fun _ => raise RecursionError) None).

Definition async_step_advanced_options : option Dict -> M FlowResult :=
  async_step_advanced_options_ _validate_discovery_phase.

(** The host's [_async_current_entries]. *)
Definition _async_current_entries : M (list ConfigEntry) :=
  fun w => (inr (config_entries (hass w)), w).

Definition async_step_user (user_input : option Dict) : M FlowResult :=
  self_modify (set_advanced_options false) ;;;
  let* current := _async_current_entries in
  match current with
  | _ :: _ => ret (Abort "single_instance_allowed")
  | [] =>
      self_modify (set_cause (Some "")) ;;;
      let show (username password app : string) (errors : option string)
        : M FlowResult :=
        let* ph := placeholders None in
        ret (ShowForm "user"
               (mkDict (Some username) (Some password) (Some app) (Some false)
                  None None None None None None None None None)
               ph errors) in
      match user_input with
      | Some ui =>
          let username := or_str (CONF_USERNAME ui) DEFAULT_USERNAME in
          let password := or_str (CONF_PASSWORD ui) DEFAULT_PASSWORD in
          let app := or_str (CONF_MOBILE_APP ui) DEFAULT_APP in
          try_except (_validate_discovery_phase (Some ui))
            (fun e =>
               match e with
               | FlowException message cause =>
                   Some (self_modify (set_cause cause) ;;;
                         show username password app (Some message))
               | CloudAuthenticationError error_code message =>
                   Some (self_modify (set_cause (Some (error_code ++ " - " ++ message)%string)) ;;;
                         show username password app (Some "invalid_auth"))
               | _ => None
               end)
      | None => show DEFAULT_USERNAME DEFAULT_PASSWORD DEFAULT_APP None
      end
  end.

End Functions.

(** ** The host's flow manager

    A submission is handed to the step named by the form shown last; a
    flow that has ended takes no more submissions. [run_flow] lists the
    results in order. *)
Section Manager.
Context `{Externals}.

Definition submit (step_id : string) (user_input : Dict) : M FlowResult :=
  if String.eqb step_id "user" then async_step_user (Some user_input)
  else if String.eqb step_id "advanced_options"
  then async_step_advanced_options (Some user_input)
  else if String.eqb step_id "unreachable_appliance"
  then async_step_unreachable_appliance (Some user_input)
  else raise (KeyError step_id).

Fixpoint run_flow (last : FlowResult) (inputs : list Dict)
  : M (list FlowResult) :=
  match last, inputs with
  | ShowForm step_id _ _ _, user_input :: rest =>
      let* r := submit step_id user_input in
      let* rs := run_flow r rest in
      ret (r :: rs)
  | _, _ => ret []
  end.

Definition start_flow (inputs : list Dict) : M (list FlowResult) :=
  let* r := async_step_user None in
  let* rs := run_flow r inputs in
  ret (r :: rs).

End Manager.

(** ** A sample environment

    Concrete constants and collaborators, to run the flow on inputs. The
    values of the constants are those of the released packages; the cloud
    accepts one account, discovery returns a given list and one address
    answers the probe. *)
Module Sample.

Definition is_digit (c : ascii) : bool :=
  let n := Z.of_nat (nat_of_ascii c) in (48 <=? n) && (n <=? 57).

Fixpoint decimal (acc : Z) (s : string) : option Z :=
  match s with
  | EmptyString => Some acc
  | String c s' =>
      if is_digit c then decimal (10 * acc + (Z.of_nat (nat_of_ascii c) - 48)) s'
      else None
  end.

Fixpoint split_on (sep : ascii) (cur : string) (s : string) : list string :=
  match s with
  | EmptyString => [cur]
  | String c s' =>
      if Ascii.eqb c sep then cur :: split_on sep "" s'
      else split_on sep (cur ++ String c "")%string s'
  end.

Definition octet (s : string) : bool :=
  match s with
  | EmptyString => false
  | String c s' =>
      (Nat.leb (String.length s) 3)
      && (negb (Ascii.eqb c "0") || String.eqb s' "")
      && match decimal 0 s with
         | Some v => v <=? 255
         | None => false
         end
  end.

Definition dotted_quad (s : string) : bool :=
  match split_on "." "" s with
  | [a; b; c; d] => octet a && octet b && octet c && octet d
  | _ => false
  end.

Definition network (s : string) : bool :=
  match split_on "/" "" s with
  | [a] => dotted_quad a
  | [a; n] =>
      dotted_quad a
      && negb (String.eqb n "")
      && match decimal 0 n with
         | Some v => v <=? 32
         | None => false
         end
  | _ => false
  end.

Definition NETHOME : AppEntry := mkApp "3742e9e5842d4ad59c2db887e12449f9" 1017.
Definition MIDEAAIR : AppEntry := mkApp "ff0cf6f5f0c3471de36341cab3f7a9af" 1117.

Definition probed : LanDevice :=
  Lan.mk "17592186044417" (Some "192.168.1.21") "Cellar" "0xa1" "TOKEN" "KEY".

(** [update] copies what the probe reports onto the appliance. *)
Definition update (appliance discovered : LanDevice) : LanDevice :=
  Lan.mk (Lan.id appliance) (Lan.ip discovered) (Lan.name appliance)
    (Lan.type discovered) (Lan.token discovered) (Lan.key discovered).

#[export] Instance env (discovered : list LanDevice) : Externals := {|
  IGNORED_IP_ADDRESS := "0.0.0.0";
  NAME := "Midea Dehumidifier (LAN)";
  DEFAULT_USERNAME := "";
  DEFAULT_PASSWORD := "";
  DEFAULT_APP := "NetHome";
  DEFAULT_APPKEY := app_appkey NETHOME;
  DEFAULT_APP_ID := app_appid NETHOME;
  SUPPORTED_APPS := <["NetHome" := NETHOME]> (<["MideaAir" := MIDEAAIR]> ∅);
  connect_to_cloud := fun account password _ _ =>
    if String.eqb account "u1" && String.eqb password "p1"
    then Connected (CloudSession 1)
    else AuthFailed "3101" "wrong password";
  find_appliances := fun _ _ => discovered;
  get_appliance_state := fun addr _ =>
    if String.eqb addr "192.168.1.21" then Some probed else None;
  LanDevice_update := update;
  IPv4Address := dotted_quad;
  IPv4Network := network
|}.

Definition hall : LanDevice := Lan.mk "1" (Some "192.168.1.20") "Hall" "0xa1" "t1" "k1".
Definition cellar : LanDevice := Lan.mk "17592186044417" None "Cellar" "0xa1" "" "".
Definition attic : LanDevice := Lan.mk "3" None "Attic" "0xa1" "" "".
Definition blank : LanDevice := Lan.mk "4" (Some "") "Garage" "0xa1" "" "".

Definition fresh : World := mkWorld __init__ (mkHass [] []) [].

(** A submission of the [user] form. *)
Definition credentials (username password app : string) (advanced : bool) : Dict :=
  mkDict (Some username) (Some password) (Some app) (Some advanced)
    None None None None None None None None None.

(** A submission of the [unreachable_appliance] form. *)
Definition appliance_input (ignore : bool) (address : option string)
    (name : string) : Dict :=
  mkDict None None None None None None None (Some ignore) address (Some name)
    None None None.

(** A submission of the [advanced_options] form. *)
Definition advanced_input (username password : string) (appkey : option string)
    (appid : option Z) : Dict :=
  mkDict (Some username) (Some password) None None appkey appid None
    None None None None None None.

(** The results of a run of the flow, from the first form on. *)
Definition results (discovered : list LanDevice) (inputs : list Dict)
  : list FlowResult :=
  match fst (@start_flow (env discovered) inputs fresh) with
  | inr rs => rs
  | inl _ => []
  end.

(** The session after the credentials were accepted and discovery has
    returned [discovered]. *)
Definition after_discovery (discovered : list LanDevice) : World :=
  snd (@start_flow (env discovered)
         [credentials "u1" "p1" "NetHome" false] fresh).

(** The session waiting on the advanced-options form. *)
Definition in_advanced : World :=
  Eval vm_compute in
    snd (@start_flow (env []) [credentials "u1" "p1" "NetHome" true] fresh).

(** The session when discovery starts. *)
Definition ready : World :=
  mkWorld
    (set_conf (Some (set_CONF_APPID 1017
                       (set_CONF_APPKEY (app_appkey NETHOME)
                          (credentials "u1" "p1" "NetHome" false))))
       __init__)
    (mkHass [] []) [].

(** A session about to be reconciled, on a host that already has an entry
    for the account [u1]. *)
Definition reauthenticating : World :=
  mkWorld
    (mkFlow (Some (CloudSession 1)) 2
       [hall; Lan.set_ip (Some "0.0.0.0") cellar; blank]
       [] (Some (set_CONF_APPID 1017
                   (set_CONF_APPKEY (app_appkey NETHOME)
                      (credentials "u1" "p1" "NetHome" false))))
       false (Some "") None)
    (mkHass [mkEntry "entry-1" (Some "other") empty_dict;
             mkEntry "entry-2" (Some "u1") empty_dict] [])
    [].

(** The environment when the cloud gives no session. *)
Definition offline : Externals := {|
  IGNORED_IP_ADDRESS := "0.0.0.0";
  NAME := "Midea Dehumidifier (LAN)";
  DEFAULT_USERNAME := "";
  DEFAULT_PASSWORD := "";
  DEFAULT_APP := "NetHome";
  DEFAULT_APPKEY := app_appkey NETHOME;
  DEFAULT_APP_ID := app_appid NETHOME;
  SUPPORTED_APPS := <["NetHome" := NETHOME]> (<["MideaAir" := MIDEAAIR]> ∅);
  connect_to_cloud := fun _ _ _ _ => NoCloud;
  find_appliances := fun _ _ => [];
  get_appliance_state := fun _ _ => None;
  LanDevice_update := update;
  IPv4Address := dotted_quad;
  IPv4Network := network
|}.

(** A submission of the [advanced_options] form with a network range. *)
Definition advanced_range_input (username password appkey : string) (appid : Z)
    (network_range : string) : Dict :=
  mkDict (Some username) (Some password) None None (Some appkey) (Some appid)
    (Some network_range) None None None None None None.

(** The configuration of [ready], with another password. *)
Definition mistyped : Dict :=
  set_CONF_APPID 1017
    (set_CONF_APPKEY (app_appkey NETHOME) (credentials "u1" "bad" "NetHome" false)).

(** A session that has lost its configuration. *)
Definition unconfigured : World :=
  mkWorld (set_conf None __init__) (mkHass [] []) [].

End Sample.

End ConfigFlow.


(** ** Vocabulary of the statements *)

Import ConfigFlow.

(** The dictionary [d] with the ignore flag replaced. Two submissions are
    the same but for the ignore flag when they are equal once the flag is
    removed from both. *)
Definition with_ignore (v : option bool) (d : Dict) : Dict :=
  mkDict (CONF_USERNAME d) (CONF_PASSWORD d) (CONF_MOBILE_APP d)
    (CONF_ADVANCED_OPTIONS d) (CONF_APPKEY d) (CONF_APPID d) (CONF_NETWORK_RANGE d)
    v (CONF_IP_ADDRESS d) (CONF_NAME d) (CONF_TOKEN d)
    (CONF_TOKEN_KEY d) (CONF_DEVICES d).

Definition same_but_ignore (u1 u2 : Dict) : Prop :=
  with_ignore None u1 = with_ignore None u2.

(** The appliance after the assignments of a submission to the
    unreachable-appliance step (address, name, token and key), before it
    is validated. *)
Definition submitted `{Externals} (user_input : Dict) (name : string)
    (a : LanDevice) : LanDevice :=
  Lan.set_key (default "" (CONF_TOKEN_KEY user_input))
    (Lan.set_token (default "" (CONF_TOKEN user_input))
       (Lan.set_name name
          (Lan.set_ip (if truthy (CONF_IP_ADDRESS user_input)
                       then CONF_IP_ADDRESS user_input
                       else Some IGNORED_IP_ADDRESS) a))).

(** [validate_and_advance] from the point where the validation has
    succeeded. *)
Definition after_validation `{Externals} (step_again : M FlowResult) (appliance : nat)
  : M FlowResult :=
  let* r :=
    try_except
      (self_modify (fun fl => set_appliance_idx (_appliance_idx fl + 1) fl) ;;;
       let* fl := self_get in
       let* found :=
         find_next_unreachable step_again
           (Z.to_nat (appliances_len fl - _appliance_idx fl)) in
       match found with
       | Some res => ret (inl res)
       | None =>
           let* fl := self_get in
           if appliances_len fl <=? _appliance_idx fl then
             let* res := _async_add_entry in ret (inl res)
           else
             let* j := appliances_getitem in ret (inr (j, None))
       end)
      (fun e =>
         match e with
         | FlowException message cause =>
             Some (self_modify (set_cause cause) ;;;
                   ret (inr (appliance, Some message)))
         | _ => None
         end) in
  match r with
  | inl res => ret res
  | inr (j, errors) => unreachable_appliance_form j errors
  end.

(** The world with the appliance at position [i] replaced, and with the
    cause replaced. *)
Definition with_appliance (i : nat) (a : LanDevice) (w : World) : World :=
  mkWorld (set_appliances (<[i := a]> (_appliances (self w))) (self w))
    (hass w) (trace w).

Definition with_cause (c : option string) (w : World) : World :=
  mkWorld (set_cause c (self w)) (hass w) (trace w).

(** The device an appliance contributes to the configuration, if its
    address is set (neither absent nor blank) and is not the ignored one. *)
Definition configured `{Externals} (a : LanDevice) : option DeviceConf :=
  match Lan.ip a with
  | Some addr =>
      if truthy (Some addr) && negb (String.eqb addr IGNORED_IP_ADDRESS)
      then Some (Dev.mk addr (Lan.id a) (Lan.name a) (Lan.type a)
                   (Lan.token a) (Lan.key a))
      else None
  | None => None
  end.

(** The host's lookup of the entry with a given unique id. *)
Definition entry_with_unique_id (uid : string) (entries : list ConfigEntry)
  : option ConfigEntry :=
  List.find (fun e => bool_decide (unique_id e = Some uid)) entries.

(** The entries after the data of [entry] has been overwritten. *)
Definition overwritten (entry : ConfigEntry) (data : Dict)
    (entries : list ConfigEntry) : list ConfigEntry :=
  map (fun e => if String.eqb (entry_id e) (entry_id entry)
                then mkEntry (entry_id e) (unique_id e) data
                else e) entries.

(** A form schema retains a submission when each of the five fields of
    the advanced-options form that the submission carries is offered again
    with the submitted value. *)
Definition retained (schema user_input : Dict) : Prop :=
  (forall v, CONF_USERNAME user_input = Some v -> CONF_USERNAME schema = Some v) /\
  (forall v, CONF_PASSWORD user_input = Some v -> CONF_PASSWORD schema = Some v) /\
  (forall v, CONF_APPKEY user_input = Some v -> CONF_APPKEY schema = Some v) /\
  (forall v, CONF_APPID user_input = Some v -> CONF_APPID schema = Some v) /\
  (forall v, CONF_NETWORK_RANGE user_input = Some v ->
             CONF_NETWORK_RANGE schema = Some v).

(** The same for the values that are not blank (not zero for the app id). *)
Definition retained_nonblank (schema user_input : Dict) : Prop :=
  (forall v, CONF_USERNAME user_input = Some v -> v <> "" ->
             CONF_USERNAME schema = Some v) /\
  (forall v, CONF_PASSWORD user_input = Some v -> v <> "" ->
             CONF_PASSWORD schema = Some v) /\
  (forall v, CONF_APPKEY user_input = Some v -> v <> "" ->
             CONF_APPKEY schema = Some v) /\
  (forall v, CONF_APPID user_input = Some v -> v <> 0 ->
             CONF_APPID schema = Some v) /\
  (forall v, CONF_NETWORK_RANGE user_input = Some v ->
             CONF_NETWORK_RANGE schema = Some v).

(** The schema of the advanced-options form after a submission, for a
    session whose configuration is [conf]. *)
Definition advanced_schema `{Externals} (conf user_input : Dict) : Dict :=
  mkDict
    (Some (or_str (CONF_USERNAME user_input)
             (or_str (CONF_USERNAME conf) DEFAULT_USERNAME)))
    (Some (or_str (CONF_PASSWORD user_input)
             (or_str (CONF_PASSWORD conf) DEFAULT_PASSWORD)))
    None None
    (Some (or_str (CONF_APPKEY user_input) DEFAULT_APPKEY))
    (Some (or_int (CONF_APPID user_input) DEFAULT_APP_ID))
    (Some (or_str (CONF_NETWORK_RANGE user_input) ""))
    None None None None None None.

(** The app key and app id of the session, when it has a configuration. *)
Definition session_app (w : World) : option (option string * option Z) :=
  (fun c => (CONF_APPKEY c, CONF_APPID c)) <$> _conf (self w).

(** The ids of the appliances for which the unreachable-appliance form is
    shown without an error, in the order of the results of a run. *)
Definition shown_appliances (results : list FlowResult) : list string :=
  omap (fun r =>
          match r with
          | ShowForm step_id _ ph None =>
              if String.eqb step_id "unreachable_appliance" then TAG_ID ph
              else None
          | _ => None
          end) results.

(** A computation is [stable] for a preorder on worlds when the world it
    leaves is related to the one it found, whatever it returns or raises.
    It [preserves] a component of the world when it leaves it as it found
    it; it [extends_trace] when it only adds to the trace. *)
Definition stable {A} (R : relation World) (m : M A) : Prop :=
  forall w, R w (snd (m w)).

Definition same {T} (proj : World -> T) : relation World :=
  fun w w' => proj w' = proj w.

Definition trace_grows : relation World :=
  fun w w' => exists more, trace w' = (trace w ++ more)%list.

Abbreviation preserves proj := (stable (same proj)).
Abbreviation extends_trace := (stable trace_grows).

(** The world with the cursor replaced. *)
Definition with_idx (z : Z) (w : World) : World :=
  mkWorld (set_appliance_idx z (self w)) (hass w) (trace w).

(** The positions, from [n] on and in increasing order, of the appliances
    whose address is unset. *)
Definition is_unresolved (l : list LanDevice) (j : nat) : bool :=
  match l !! j with
  | Some a => bool_decide (Lan.ip a = None)
  | None => false
  end.

Definition unresolved_from (n : nat) (l : list LanDevice) : list nat :=
  filter (fun j => is_unresolved l j = true) (seq n (length l - n)).

(** The id of the appliance at a position. *)
Definition id_at (l : list LanDevice) (j : nat) : string :=
  from_option Lan.id "" (l !! j).

(** A submission to the unreachable-appliance step is accepted when it
    carries a name and the appliance filled in from it passes
    [validate_appliance]. *)
Definition accepted `{Externals} (cloud : option MideaCloud) (user_input : Dict)
  : Prop :=
  exists name, CONF_NAME user_input = Some name /\
    forall a tr, exists b out,
      validate_appliance cloud (submitted user_input name a, tr) = (inr b, out).

(** The results with which the reconciler ends the flow. *)
Definition reconciled (r : option FlowResult) : Prop :=
  (exists data, r = Some (CreateEntry "Midea Dehumidifiers" data)) \/
  r = Some (Abort "reauth_successful").

(** The unreachable-appliance form as it is shown for an appliance when
    the step is entered. *)
Definition form_for `{Externals} (a : LanDevice) : FlowResult :=
  ShowForm "unreachable_appliance"
    (mkDict None None None None None None None
       (Some false) (Some IGNORED_IP_ADDRESS) (Some (Lan.name a)) None None None)
    (mkPlaceholders "" NAME (Some (Lan.id a)) (Some (Lan.name a)))
    None.

(** The world once the appliance at position [i] has been validated as
    [a'], with the trace [tr'] of outside calls. *)
Definition validated (i : nat) (a' : LanDevice) (tr' : list Event) (w : World)
  : World :=
  mkWorld (set_appliances (<[i := a']> (_appliances (self w)))
             (set_cause (Some "") (self w)))
    (hass w) tr'.

(** The networks [connect_and_discover] hands to [find_appliances]. *)
Definition networks_of (conf : Dict) : list string :=
  match CONF_NETWORK_RANGE conf with
  | Some s => if String.eqb s "" then [] else [s]
  | None => []
  end.

(** The world once the cloud has answered and discovery has returned. *)
Definition discovered_world `{Externals} (account password appkey : string)
    (appid : Z) (cloud : MideaCloud) (conf : Dict) (w : World) : World :=
  mkWorld
    (set_cloud (Some cloud)
       (set_appliances (find_appliances cloud (networks_of conf)) (self w)))
    (hass w)
    (trace w ++ [CallConnect account password appkey appid;
                 CallFind cloud (networks_of conf)])%list.

(** The schema of the user form after a submission. *)
Definition user_schema `{Externals} (user_input : Dict) : Dict :=
  mkDict
    (Some (or_str (CONF_USERNAME user_input) DEFAULT_USERNAME))
    (Some (or_str (CONF_PASSWORD user_input) DEFAULT_PASSWORD))
    (Some (or_str (CONF_MOBILE_APP user_input) DEFAULT_APP))
    (Some false)
    None None None None None None None None None.

(** The app key and app id the credential step resolves for a
    submission: those of the table entry of a non-blank profile name, the
    defaults without one. *)
Definition resolved `{Externals} (user_input : Dict) (appkey : string)
    (appid : Z) : Prop :=
  (truthy (CONF_MOBILE_APP user_input) = false /\
   appkey = DEFAULT_APPKEY /\ appid = DEFAULT_APP_ID) \/
  (exists app entry,
     CONF_MOBILE_APP user_input = Some app /\ app <> "" /\
     SUPPORTED_APPS !! app = Some entry /\
     appkey = app_appkey entry /\ appid = app_appid entry).

(** The world with the configuration replaced. *)
Definition with_conf (c : Dict) (w : World) : World :=
  mkWorld (set_conf (Some c) (self w)) (hass w) (trace w).

(** Two worlds whose lists of appliances have the same length and agree
    everywhere but at position [i]. *)
Definition differ_at (i : nat) : relation World :=
  fun w w' =>
    length (_appliances (self w')) = length (_appliances (self w)) /\
    forall j, j <> i ->
              _appliances (self w') !! j = _appliances (self w) !! j.

(** The cursor has not moved back. *)
Definition cursor_forward : relation World :=
  fun w w' => _appliance_idx (self w) <= _appliance_idx (self w').

(** A submission to the unreachable-appliance step that ignores the
    appliance: no address, or a blank one, and a name. *)
Definition ignoring (user_input : Dict) : Prop :=
  truthy (CONF_IP_ADDRESS user_input) = false /\
  is_Some (CONF_NAME user_input).

(** What a run of the unreachable-appliance step may change, for the
    cursor at position [i]: the appliance at [i] and no other, the cursor
    forwards only, and not the cloud session. *)
Definition step_frame (i : nat) : relation World :=
  fun w w' =>
    differ_at i w w' /\ cursor_forward w w' /\
    _cloud (self w') = _cloud (self w).

(** * Properties *)

(** ** The humidifier entity *)

Section HumidifierProofs.
Import Humidifier.

Lemma getattr_apply (self : DehumidifierEntity) (attr : string) (v dflt : Z) :
  getattr (state (apply self attr v)) attr dflt = v.
Proof.
  unfold getattr, apply. simpl. rewrite lookup_insert_eq. reflexivity.
Qed.

Lemma mode_of_state (self : DehumidifierEntity) (z : Z) :
  state self !! "mode" = Some z ->
  mode self =
    if z =? 1 then (MODE_SET, [])
    else if z =? 2 then (MODE_CONTINOUS, [])
    else if z =? 3 then (MODE_SMART, [])
    else if z =? 4 then (MODE_DRY, [])
    else if z =? 6 then (MODE_PURIFIER, [])
    else if z =? 7 then (MODE_ANTIMOULD, [])
    else (MODE_SET, [mkLog WARNING "Unknown mode %d" [ArgInt z]]).
Proof.
  intros Hz. unfold mode, getattr. rewrite Hz. reflexivity.
Qed.

Lemma known_mode_false (z : Z) :
  known_mode z = false ->
  (z =? 1) = false /\ (z =? 2) = false /\ (z =? 3) = false /\
  (z =? 4) = false /\ (z =? 6) = false /\ (z =? 7) = false.
Proof.
  unfold known_mode. intros Hk.
  repeat (apply orb_false_elim in Hk; destruct Hk as [Hk ?]).
  repeat split; assumption.
Qed.

(** C9: the [mode] property maps 1 to Set, 2 to Continuous, 3 to Smart,
    4 to Dry, 6 to Purifier and 7 to Antimould; every other integer logs a
    warning and maps to Set. [set_mode] hands [apply] the integer of each
    of the six labels, and reading [mode] after [set_mode] with one of the
    six labels gives that label back, with nothing logged. *)
Theorem mode_mapping_exact (self : DehumidifierEntity) :
  (state self !! "mode" = Some 1 -> mode self = ("Set", [])) /\
  (state self !! "mode" = Some 2 -> mode self = ("Continuous", [])) /\
  (state self !! "mode" = Some 3 -> mode self = ("Smart", [])) /\
  (state self !! "mode" = Some 4 -> mode self = ("Dry", [])) /\
  (state self !! "mode" = Some 6 -> mode self = ("Purifier", [])) /\
  (state self !! "mode" = Some 7 -> mode self = ("Antimould", [])) /\
  (forall z, state self !! "mode" = Some z -> known_mode z = false ->
     mode self = ("Set", [mkLog WARNING "Unknown mode %d" [ArgInt z]])) /\
  (set_mode_code "Set" = (1, []) /\ set_mode_code "Continuous" = (2, []) /\
   set_mode_code "Smart" = (3, []) /\ set_mode_code "Dry" = (4, []) /\
   set_mode_code "Purifier" = (6, []) /\ set_mode_code "Antimould" = (7, [])) /\
  (forall label, label ∈ labels ->
     snd (set_mode self label) = [] /\
     state (fst (set_mode self label)) !! "mode" = Some (fst (set_mode_code label)) /\
     mode (fst (set_mode self label)) = (label, [])).
Proof.
  do 6 (split; [intros Hz; rewrite (mode_of_state _ _ Hz); reflexivity |]).
  split; [| split].
  - intros z Hz Hk. rewrite (mode_of_state _ _ Hz).
    destruct (known_mode_false z Hk) as (-> & -> & -> & -> & -> & ->).
    reflexivity.
  - repeat split.
  - intros label Hin. unfold set_mode.
    assert (Hrt : snd (set_mode_code label) = [] /\
                  mode (apply self "mode" (fst (set_mode_code label))) = (label, [])).
    { unfold mode. rewrite getattr_apply. unfold labels in Hin.
      repeat (apply elem_of_cons in Hin; destruct Hin as [-> | Hin]);
        try (split; reflexivity).
      apply elem_of_nil in Hin. destruct Hin. }
    destruct (set_mode_code label) as [c logged]. simpl in *.
    destruct Hrt as [-> Hm]. repeat split; [apply lookup_insert_eq | exact Hm].
Qed.

Lemma mode_mapping_exact_witness :
  mode (mkEntity (<["mode" := 3]> ∅) []) = ("Smart", []) /\
  mode (mkEntity (<["mode" := 5]> ∅) [])
    = ("Set", [mkLog WARNING "Unknown mode %d" [ArgInt 5]]) /\
  mode (fst (set_mode (mkEntity (<["mode" := 5]> ∅) []) "Purifier")) = ("Purifier", []).
Proof.
  split; [| split].
  - apply (mode_mapping_exact (mkEntity (<["mode" := 3]> ∅) [])). reflexivity.
  - apply (mode_mapping_exact (mkEntity (<["mode" := 5]> ∅) [])); reflexivity.
  - apply (mode_mapping_exact (mkEntity (<["mode" := 5]> ∅) [])).
    unfold labels. set_solver.
Defined.

End HumidifierProofs.

(** ** Running a computation step by step *)

Lemma bind_ok {S A B} (m : St S A) (k : A -> St S B) (s s' : S) (a : A) :
  m s = (inr a, s') -> bind m k s = k a s'.
Proof. intros Hm. unfold bind. rewrite Hm. reflexivity. Qed.

Lemma bind_exn {S A B} (m : St S A) (k : A -> St S B) (s s' : S) (e : Exn) :
  m s = (inl e, s') -> bind m k s = (inl e, s').
Proof. intros Hm. unfold bind. rewrite Hm. reflexivity. Qed.

Lemma try_except_ok {S A} (m : St S A) h (s s' : S) (a : A) :
  m s = (inr a, s') -> try_except m h s = (inr a, s').
Proof. intros Hm. unfold try_except. rewrite Hm. reflexivity. Qed.

Lemma try_except_handled {S A} (m : St S A) h (k : St S A) (s s' : S) (e : Exn) :
  m s = (inl e, s') -> h e = Some k -> try_except m h s = k s'.
Proof. intros Hm Hh. unfold try_except. rewrite Hm, Hh. reflexivity. Qed.

Lemma try_except_unhandled {S A} (m : St S A) h (s s' : S) (e : Exn) :
  m s = (inl e, s') -> h e = None -> try_except m h s = (inl e, s').
Proof. intros Hm Hh. unfold try_except. rewrite Hm, Hh. reflexivity. Qed.

Tactic Notation "run_ok" tactic3(tac) := (erewrite bind_ok by tac); cbv beta.
Tactic Notation "run_exn" tactic3(tac) := (erewrite bind_exn by tac); cbv beta.

#[local] Instance same_preorder {T} (proj : World -> T) : PreOrder (same proj).
Proof.
  split.
  - intros w. reflexivity.
  - intros w1 w2 w3 H12 H23. unfold same in *. congruence.
Qed.

#[local] Instance trace_grows_preorder : PreOrder trace_grows.
Proof.
  split.
  - intros w. exists []. rewrite app_nil_r. reflexivity.
  - intros w1 w2 w3 [m1 H1] [m2 H2]. exists (m1 ++ m2)%list.
    rewrite H2, H1, app_assoc. reflexivity.
Qed.

Section Stable.
Context (R : relation World) `{!PreOrder R}.

Lemma stable_ret {A} (a : A) : stable R (ret a).
Proof. intros w. simpl. reflexivity. Qed.

Lemma stable_raise {A} (e : Exn) : stable R (@raise World A e).
Proof. intros w. simpl. reflexivity. Qed.

Lemma stable_self_get : stable R self_get.
Proof. intros w. simpl. reflexivity. Qed.

Lemma stable_bind {A B} (m : M A) (k : A -> M B) :
  stable R m -> (forall a, stable R (k a)) -> stable R (bind m k).
Proof.
  intros Hm Hk w. unfold bind. specialize (Hm w).
  destruct (m w) as [[e | a] w1]; simpl in *; [exact Hm |].
  etransitivity; [exact Hm | apply Hk].
Qed.

Lemma stable_try_except {A} (m : M A) h :
  stable R m -> (forall e k, h e = Some k -> stable R k) ->
  stable R (try_except m h).
Proof.
  intros Hm Hh w. unfold try_except. specialize (Hm w).
  destruct (m w) as [[e | a] w1]; simpl in *; [| exact Hm].
  destruct (h e) as [k |] eqn:He; [| exact Hm].
  etransitivity; [exact Hm | apply (Hh e k He)].
Qed.

Lemma stable_modify (f : World -> World) :
  (forall w, R w (f w)) -> stable R (modify f).
Proof. intros Hf w. simpl. apply Hf. Qed.

Lemma stable_read {A} (f : World -> A) : stable R (fun w => (inr (f w), w)).
Proof. intros w. simpl. reflexivity. Qed.

Lemma stable_getitem {A} (k : string) (o : option A) : stable R (getitem k o).
Proof. intros w. destruct o; simpl; reflexivity. Qed.

End Stable.

Ltac stable_goal side :=
  lazymatch goal with
  | |- PreOrder _ => typeclasses eauto
  | |- stable _ _ => idtac
  | |- forall e k, _ = Some k -> stable _ k => intros [] ? ?; simplify_eq/=
  | |- forall _, stable _ _ => intros ?
  | |- _ => solve [side]
  end.

Ltac stable_step side :=
  lazymatch goal with
  | |- stable _ (ret _) => apply stable_ret
  | |- stable _ (raise _) => apply stable_raise
  | |- stable _ self_get => apply stable_self_get
  | |- stable _ (getitem _ _) => apply stable_getitem
  | |- stable _ (bind _ _) => apply stable_bind
  | |- stable _ (try_except _ _) => apply stable_try_except
  | |- stable _ (modify _) => apply stable_modify
  | |- stable _ (self_modify _) => unfold self_modify; apply stable_modify
  | |- stable _ (conf_modify _) => unfold conf_modify, self_modify; apply stable_modify
  | |- stable _ (emit _) => unfold emit; apply stable_modify
  | |- stable _ conf_get => unfold conf_get
  | |- stable _ (fun w => (inr _, w)) => apply stable_read
  | |- stable _ (match ?x with _ => _ end) => destruct x
  | |- stable _ (if ?b then _ else _) => destruct b
  end;
  stable_goal side.

Ltac same_side :=
  intros [[? ? ? ? [] ? ? ?] ? ?]; unfold same; simpl; repeat case_match;
  reflexivity.

Ltac grows_side :=
  intros [? ? ?]; unfold trace_grows; simpl;
  first [ exists []; rewrite app_nil_r; reflexivity | eexists; reflexivity ].

Ltac preserving := repeat stable_step ltac:(idtac; same_side).
Ltac extending := repeat stable_step ltac:(idtac; grows_side).

(** ** Validation of one appliance *)

Section ValidateProofs.
Context `{Externals}.

(** C5: [validate_appliance] succeeds without a probe when the address is
    unset or the ignored address; otherwise it raises [invalid_ip_address]
    with the address when the address does not parse, raises
    [not_discovered] with the address when the probe finds nothing, and on
    a successful probe updates the appliance with what the probe reports. *)
Theorem validate_appliance_cases (cloud : option MideaCloud)
    (appliance : LanDevice) (tr : list Event) :
  (Lan.ip appliance = None \/ Lan.ip appliance = Some IGNORED_IP_ADDRESS ->
     validate_appliance cloud (appliance, tr)
     = (inr true,
        (appliance,
         tr ++ [Logged (mkLog DEBUG "Ignored appliance with id=%s"
                          [ArgStr (Lan.id appliance)])])%list)) /\
  (forall addr, Lan.ip appliance = Some addr -> addr <> IGNORED_IP_ADDRESS ->
     IPv4Address addr = false ->
     validate_appliance cloud (appliance, tr)
     = (inl (FlowException "invalid_ip_address" (Some addr)), (appliance, tr))) /\
  (forall addr, Lan.ip appliance = Some addr -> addr <> IGNORED_IP_ADDRESS ->
     IPv4Address addr = true -> get_appliance_state addr cloud = None ->
     validate_appliance cloud (appliance, tr)
     = (inl (FlowException "not_discovered" (Some addr)),
        (appliance, tr ++ [CallProbe addr cloud])%list)) /\
  (forall addr discovered, Lan.ip appliance = Some addr ->
     addr <> IGNORED_IP_ADDRESS -> IPv4Address addr = true ->
     get_appliance_state addr cloud = Some discovered ->
     validate_appliance cloud (appliance, tr)
     = (inr true,
        (LanDevice_update appliance discovered, tr ++ [CallProbe addr cloud])%list)).
Proof.
  unfold validate_appliance. repeat split.
  - intros [Hip | Hip]; rewrite Hip.
    + reflexivity.
    + rewrite String.eqb_refl. reflexivity.
  - intros addr Hip Hne Hparse. rewrite Hip.
    apply String.eqb_neq in Hne. rewrite Hne, Hparse. reflexivity.
  - intros addr Hip Hne Hparse Hprobe. rewrite Hip.
    apply String.eqb_neq in Hne. rewrite Hne, Hparse, Hprobe. reflexivity.
  - intros addr discovered Hip Hne Hparse Hprobe. rewrite Hip.
    apply String.eqb_neq in Hne. rewrite Hne, Hparse, Hprobe. reflexivity.
Qed.

End ValidateProofs.

Lemma validate_appliance_cases_witness :
  let E := Sample.env [] in
  let cloud := Some (CloudSession 1) in
  validate_appliance cloud (Sample.cellar, []) = (inr true,
     (Sample.cellar,
      [Logged (mkLog DEBUG "Ignored appliance with id=%s" [ArgStr "17592186044417"])])) /\
  validate_appliance cloud (Lan.set_ip (Some "10.0.0.256") Sample.cellar, [])
  = (inl (FlowException "invalid_ip_address" (Some "10.0.0.256")),
     (Lan.set_ip (Some "10.0.0.256") Sample.cellar, [])) /\
  validate_appliance cloud (Lan.set_ip (Some "10.0.0.5") Sample.cellar, [])
  = (inl (FlowException "not_discovered" (Some "10.0.0.5")),
     (Lan.set_ip (Some "10.0.0.5") Sample.cellar, [CallProbe "10.0.0.5" cloud])) /\
  validate_appliance cloud (Lan.set_ip (Some "192.168.1.21") Sample.cellar, [])
  = (inr true,
     (Sample.update (Lan.set_ip (Some "192.168.1.21") Sample.cellar) Sample.probed,
      [CallProbe "192.168.1.21" cloud])).
Proof.
  intros E cloud.
  split; [| split; [| split]].
  - apply (@validate_appliance_cases E cloud Sample.cellar []).
    left. reflexivity.
  - apply (@validate_appliance_cases E cloud
             (Lan.set_ip (Some "10.0.0.256") Sample.cellar) []);
      [reflexivity | discriminate | reflexivity].
  - apply (@validate_appliance_cases E cloud
             (Lan.set_ip (Some "10.0.0.5") Sample.cellar) []);
      [reflexivity | discriminate | reflexivity | reflexivity].
  - apply (@validate_appliance_cases E cloud
             (Lan.set_ip (Some "192.168.1.21") Sample.cellar) []);
      [reflexivity | discriminate | reflexivity | reflexivity].
Defined.

(** ** The unreachable-appliance step *)

Section UnreachableProofs.
Context `{Externals}.

Lemma py_index_lt {A} (l : list A) (z : Z) (i : nat) :
  py_index l z = Some i -> (i < length l)%nat.
Proof.
  unfold py_index. intros Hi.
  destruct ((0 <=? z) && (z <? Z.of_nat (length l))) eqn:E1.
  - inversion Hi; subst. apply andb_true_iff in E1. lia.
  - destruct ((z <? 0) && (0 <=? z + Z.of_nat (length l))) eqn:E2; [| discriminate].
    inversion Hi; subst. apply andb_true_iff in E2. lia.
Qed.

Lemma py_index_nonneg {A} (l : list A) (z : Z) :
  0 <= z < Z.of_nat (length l) -> py_index l z = Some (Z.to_nat z).
Proof.
  intros Hz. unfold py_index.
  replace ((0 <=? z) && (z <? Z.of_nat (length l))) with true; [reflexivity |].
  symmetry. apply andb_true_iff. lia.
Qed.

Lemma py_index_of_nat {A} (l : list A) (n : nat) :
  (n < length l)%nat -> py_index l (Z.of_nat n) = Some n.
Proof.
  intros Hn. rewrite py_index_nonneg by lia. rewrite Nat2Z.id. reflexivity.
Qed.

Lemma alter_as_insert {A} (f : A -> A) (l : list A) (i : nat) (a : A) :
  l !! i = Some a -> alter f i l = <[i := f a]> l.
Proof.
  revert i. induction l as [| x l IH]; intros [| i] Hl; simpl in *;
    try discriminate.
  - inversion Hl; subst. reflexivity.
  - f_equal. apply IH. exact Hl.
Qed.

Lemma appliance_setattr_run (i : nat) (f : LanDevice -> LanDevice) (w : World)
    (a : LanDevice) :
  _appliances (self w) !! i = Some a ->
  appliance_setattr i f w = (inr tt, with_appliance i (f a) w).
Proof.
  intros Ha. unfold appliance_setattr, self_modify, modify, with_appliance.
  rewrite (alter_as_insert f _ i a Ha). reflexivity.
Qed.

Lemma appliance_at_run (i : nat) (w : World) (a : LanDevice) :
  _appliances (self w) !! i = Some a -> appliance_at i w = (inr a, w).
Proof.
  intros Ha. unfold appliance_at, bind, self_get. rewrite Ha. reflexivity.
Qed.

Lemma appliances_getitem_run (w : World) (i : nat) :
  py_index (_appliances (self w)) (_appliance_idx (self w)) = Some i ->
  appliances_getitem w = (inr i, w).
Proof.
  intros Hi. unfold appliances_getitem, bind, self_get. rewrite Hi. reflexivity.
Qed.

Lemma with_appliance_lookup (i : nat) (a : LanDevice) (w : World) :
  (i < length (_appliances (self w)))%nat ->
  _appliances (self (with_appliance i a w)) !! i = Some a.
Proof. intros Hi. simpl. apply list_lookup_insert_eq. exact Hi. Qed.

Lemma with_appliance_twice (i : nat) (a b : LanDevice) (w : World) :
  with_appliance i b (with_appliance i a w) = with_appliance i b w.
Proof.
  unfold with_appliance. simpl. rewrite list_insert_insert_eq. reflexivity.
Qed.

Lemma with_appliance_length (i : nat) (a : LanDevice) (w : World) :
  length (_appliances (self (with_appliance i a w))) = length (_appliances (self w)).
Proof. simpl. apply length_insert. Qed.

Lemma validate_appliance_raises (cloud : option MideaCloud) (a : LanDevice)
    (tr : list Event) (e : Exn) :
  fst (validate_appliance cloud (a, tr)) = inl e ->
  fst (snd (validate_appliance cloud (a, tr))) = a.
Proof.
  unfold validate_appliance.
  destruct (Lan.ip a) as [addr |]; [| discriminate].
  destruct (String.eqb addr IGNORED_IP_ADDRESS); [discriminate |].
  destruct (IPv4Address addr); [| reflexivity].
  destruct (get_appliance_state addr cloud); [discriminate | reflexivity].
Qed.

(** C10: two submissions to the unreachable-appliance step that are
    identical except for the ignore flag (which may be true, false or
    absent in either) give the same result and leave the same state, the
    appliance records included: the step never reads the flag. *)
Theorem ignore_flag_never_read (w : World) (u1 u2 : Dict) :
  same_but_ignore u1 u2 ->
  async_step_unreachable_appliance (Some u1) w
  = async_step_unreachable_appliance (Some u2) w.
Proof.
  unfold same_but_ignore. intros Hsame.
  transitivity (async_step_unreachable_appliance (Some (with_ignore None u1)) w);
    [reflexivity |].
  rewrite Hsame. reflexivity.
Qed.

Lemma keeps_appliances_form (i : nat) (errors : option string) :
  preserves (fun w => _appliances (self w)) (unreachable_appliance_form i errors).
Proof.
  unfold unreachable_appliance_form, appliance_at, placeholders, self_modify.
  preserving.
Qed.


Lemma keeps_appliances_add_entry :
  preserves (fun w => _appliances (self w)) _async_add_entry.
Proof.
  unfold _async_add_entry, conf_get, conf_modify, async_set_unique_id,
    async_update_entry, async_create_task, emit, self_modify.
  preserving.
Qed.

Lemma keeps_appliances_step_none (step_again : M FlowResult) :
  preserves (fun w => _appliances (self w))
    (async_step_unreachable_appliance_ step_again None).
Proof.
  unfold async_step_unreachable_appliance_, appliances_getitem, self_modify.
  preserving. apply keeps_appliances_form.
Qed.

Lemma keeps_appliances_find_next (step_again : M FlowResult) (fuel : nat) :
  preserves (fun w => _appliances (self w)) step_again ->
  preserves (fun w => _appliances (self w))
    (find_next_unreachable step_again fuel).
Proof.
  intros Hstep. induction fuel as [| fuel IH]; simpl.
  - apply stable_ret; typeclasses eauto.
  - unfold appliances_getitem, appliance_at, self_modify.
    preserving; assumption.
Qed.

Lemma validate_and_advance_valid (step_again : M FlowResult) (i : nat)
    (w w' : World) (b : bool) :
  run_validate_appliance i w = (inr b, w') ->
  validate_and_advance step_again i w = after_validation step_again i w'.
Proof.
  intros Hv. unfold validate_and_advance, after_validation, bind, try_except.
  rewrite Hv. reflexivity.
Qed.

Lemma keeps_appliances_after_validation (step_again : M FlowResult) (i : nat) :
  preserves (fun w => _appliances (self w)) step_again ->
  preserves (fun w => _appliances (self w)) (after_validation step_again i).
Proof.
  intros Hstep. unfold after_validation, appliances_getitem, self_modify.
  preserving;
    first [ apply keeps_appliances_find_next; assumption
          | apply keeps_appliances_add_entry
          | apply keeps_appliances_form ].
Qed.

(** A submission that carries a name: the assignments are made, then the
    appliance is validated. *)
Lemma step_submitted (w : World) (user_input : Dict) (i : nat)
    (a0 : LanDevice) (name : string) :
  py_index (_appliances (self w)) (_appliance_idx (self w)) = Some i ->
  _appliances (self w) !! i = Some a0 ->
  CONF_NAME user_input = Some name ->
  async_step_unreachable_appliance (Some user_input) w
  = validate_and_advance (async_step_unreachable_appliance_ (raise RecursionError) None)
      i (with_appliance i (submitted user_input name a0) (with_cause (Some "") w)).
Proof.
  intros Hidx Ha0 Hname.
  assert (Hlt : (i < length (_appliances (self w)))%nat)
    by (eapply py_index_lt; exact Hidx).
  unfold async_step_unreachable_appliance.
  unfold async_step_unreachable_appliance_ at 1.
  run_ok (unfold self_modify, modify; reflexivity).
  run_ok (apply appliances_getitem_run; exact Hidx).
  run_ok (eapply appliance_setattr_run; exact Ha0).
  run_ok (apply appliance_at_run; apply with_appliance_lookup; exact Hlt).
  fold (with_cause (Some "") w).
  assert (Hset : forall f a w1,
             (i < length (_appliances (self w1)))%nat ->
             appliance_setattr i f (with_appliance i a w1)
             = (inr tt, with_appliance i (f a) w1)).
  { intros f a w1 Hw1.
    rewrite (appliance_setattr_run i f _ a) by (apply with_appliance_lookup; exact Hw1).
    rewrite with_appliance_twice. reflexivity. }
  unfold submitted. simpl (Lan.ip (Lan.set_ip _ _)).
  destruct (truthy (CONF_IP_ADDRESS user_input)).
  - run_ok reflexivity.
    rewrite Hname. run_ok reflexivity.
    do 3 run_ok (apply Hset; exact Hlt).
    reflexivity.
  - run_ok (apply Hset; exact Hlt).
    rewrite Hname. run_ok reflexivity.
    do 3 run_ok (apply Hset; exact Hlt).
    reflexivity.
Qed.

(** A submission without a name raises [KeyError] once the address has
    been assigned. *)
Lemma step_submitted_nameless (w : World) (user_input : Dict) (i : nat)
    (a0 : LanDevice) :
  py_index (_appliances (self w)) (_appliance_idx (self w)) = Some i ->
  _appliances (self w) !! i = Some a0 ->
  CONF_NAME user_input = None ->
  async_step_unreachable_appliance (Some user_input) w
  = (inl (KeyError "name"),
     with_appliance i
       (Lan.set_ip (if truthy (CONF_IP_ADDRESS user_input)
                    then CONF_IP_ADDRESS user_input
                    else Some IGNORED_IP_ADDRESS) a0)
       (with_cause (Some "") w)).
Proof.
  intros Hidx Ha0 Hname.
  assert (Hlt : (i < length (_appliances (self w)))%nat)
    by (eapply py_index_lt; exact Hidx).
  unfold async_step_unreachable_appliance.
  unfold async_step_unreachable_appliance_ at 1.
  run_ok (unfold self_modify, modify; reflexivity).
  run_ok (apply appliances_getitem_run; exact Hidx).
  run_ok (eapply appliance_setattr_run; exact Ha0).
  run_ok (apply appliance_at_run; apply with_appliance_lookup; exact Hlt).
  fold (with_cause (Some "") w).
  simpl (Lan.ip (Lan.set_ip _ _)).
  destruct (truthy (CONF_IP_ADDRESS user_input)).
  - run_ok reflexivity. rewrite Hname. run_exn reflexivity. reflexivity.
  - run_ok (rewrite (appliance_setattr_run i _ _ (Lan.set_ip (CONF_IP_ADDRESS user_input) a0))
              by (apply with_appliance_lookup; exact Hlt);
            rewrite with_appliance_twice; reflexivity).
    rewrite Hname. run_exn reflexivity. reflexivity.
Qed.

(** Validation that raises [FlowException] redisplays the form for the
    same appliance. *)
Lemma validate_and_advance_invalid (step_again : M FlowResult) (w : World)
    (i : nat) (a : LanDevice) (message : string) (cause : option string) :
  _appliances (self w) !! i = Some a ->
  fst (validate_appliance (_cloud (self w)) (a, trace w))
  = inl (FlowException message cause) ->
  validate_and_advance step_again i w
  = (inr (ShowForm "unreachable_appliance"
            (mkDict None None None None None None None
               (Some false) (Some IGNORED_IP_ADDRESS) (Some (Lan.name a))
               None None None)
            (mkPlaceholders (or_str cause "") NAME (Some (Lan.id a))
               (Some (Lan.name a)))
            (Some message)),
     mkWorld (set_cause cause (self w)) (hass w)
       (snd (snd (validate_appliance (_cloud (self w)) (a, trace w))))).
Proof.
  intros Ha Hval.
  pose proof (validate_appliance_raises _ _ _ _ Hval) as Hsame.
  unfold validate_and_advance.
  assert (Hrun : run_validate_appliance i w
                 = (inl (FlowException message cause),
                    mkWorld (self w) (hass w)
                      (snd (snd (validate_appliance (_cloud (self w)) (a, trace w)))))).
  { unfold run_validate_appliance. rewrite Ha.
    destruct (validate_appliance (_cloud (self w)) (a, trace w)) as [r [a' tr']].
    simpl in *. subst. rewrite list_insert_id by exact Ha.
    destruct w as [[] ? ?]; reflexivity. }
  clear Hval Hsame.
  set (tr' := snd (snd (validate_appliance (_cloud (self w)) (a, trace w)))) in *.
  clearbody tr'.
  unfold bind at 1.
  erewrite try_except_handled; [| eapply bind_exn; exact Hrun | reflexivity].
  unfold unreachable_appliance_form, appliance_at, placeholders, bind, self_modify,
    modify, self_get, ret. simpl.
  rewrite Ha. reflexivity.
Qed.

(** C8: when the validation of a submission to the unreachable-appliance
    step raises [FlowException], the step shows the same form again for
    the same appliance (its id and name in the placeholders) with the
    message as error and the cause in the placeholders; the cursor is
    where it was, and the list of appliances differs from the one before
    the submission at the cursor only, so every appliance before it (and
    after it) is unaltered. *)
Theorem validation_failure_redisplays (w : World) (user_input : Dict)
    (i : nat) (a0 : LanDevice) (name message : string) (cause : option string) :
  py_index (_appliances (self w)) (_appliance_idx (self w)) = Some i ->
  _appliances (self w) !! i = Some a0 ->
  CONF_NAME user_input = Some name ->
  fst (validate_appliance (_cloud (self w)) (submitted user_input name a0, trace w))
  = inl (FlowException message cause) ->
  let r := fst (async_step_unreachable_appliance (Some user_input) w) in
  let w' := snd (async_step_unreachable_appliance (Some user_input) w) in
  r = inr (ShowForm "unreachable_appliance"
             (mkDict None None None None None None None
                (Some false) (Some IGNORED_IP_ADDRESS) (Some name) None None None)
             (mkPlaceholders (or_str cause "") NAME (Some (Lan.id a0)) (Some name))
             (Some message)) /\
  _appliance_idx (self w') = _appliance_idx (self w) /\
  _cause (self w') = cause /\
  length (_appliances (self w')) = length (_appliances (self w)) /\
  _appliances (self w') !! i = Some (submitted user_input name a0) /\
  (forall j, j <> i -> _appliances (self w') !! j = _appliances (self w) !! j) /\
  (forall j, (j < i)%nat -> _appliances (self w') !! j = _appliances (self w) !! j).
Proof.
  intros Hidx Ha0 Hname Hval r w'. subst r w'.
  assert (Hlt : (i < length (_appliances (self w)))%nat)
    by (eapply py_index_lt; exact Hidx).
  rewrite (step_submitted w user_input i a0 name Hidx Ha0 Hname).
  rewrite (validate_and_advance_invalid _ _ i (submitted user_input name a0)
             message cause);
    [| apply with_appliance_lookup; exact Hlt | exact Hval ].
  simpl. repeat split.
  - apply length_insert.
  - apply list_lookup_insert_eq. exact Hlt.
  - intros j Hj. apply list_lookup_insert_ne. congruence.
  - intros j Hj. apply list_lookup_insert_ne. lia.
Qed.

Lemma run_validate_ignored (w : World) (i : nat) (a : LanDevice) :
  _appliances (self w) !! i = Some a ->
  Lan.ip a = Some IGNORED_IP_ADDRESS ->
  run_validate_appliance i w
  = (inr true,
     mkWorld (self w) (hass w)
       (trace w ++ [Logged (mkLog DEBUG "Ignored appliance with id=%s"
                              [ArgStr (Lan.id a)])])%list).
Proof.
  intros Ha Hip. unfold run_validate_appliance. rewrite Ha.
  rewrite (proj1 (validate_appliance_cases (_cloud (self w)) a (trace w)))
    by (right; exact Hip).
  rewrite list_insert_id by exact Ha.
  destruct w as [[] ? ?]; reflexivity.
Qed.

(** C2: a submission to the unreachable-appliance step whose address is
    blank or absent leaves the appliance at the cursor with the ignored
    address, whatever the ignore flag of the submission is (true, false or
    absent). *)
Theorem blank_address_is_ignored (w : World) (user_input : Dict)
    (flag : option bool) (i : nat) :
  py_index (_appliances (self w)) (_appliance_idx (self w)) = Some i ->
  truthy (CONF_IP_ADDRESS user_input) = false ->
  Lan.ip <$>
    (_appliances
       (self (snd (async_step_unreachable_appliance
                     (Some (with_ignore flag user_input)) w))) !! i)
  = Some (Some IGNORED_IP_ADDRESS).
Proof.
  intros Hidx Hblank.
  assert (Hlt : (i < length (_appliances (self w)))%nat)
    by (eapply py_index_lt; exact Hidx).
  destruct (lookup_lt_is_Some_2 _ _ Hlt) as [a0 Ha0].
  destruct (CONF_NAME user_input) as [name |] eqn:Hname.
  - rewrite (step_submitted w _ i a0 name Hidx Ha0) by exact Hname.
    set (a := submitted (with_ignore flag user_input) name a0).
    assert (Hip : Lan.ip a = Some IGNORED_IP_ADDRESS).
    { subst a. unfold submitted. simpl. rewrite Hblank. reflexivity. }
    set (w6 := with_appliance i a (with_cause (Some "") w)).
    assert (Ha : _appliances (self w6) !! i = Some a)
      by (apply with_appliance_lookup; exact Hlt).
    rewrite (validate_and_advance_valid _ i w6 _ true
               (run_validate_ignored w6 i a Ha Hip)).
    rewrite (keeps_appliances_after_validation _ i
               (keeps_appliances_step_none _)).
    cbn [self]. rewrite Ha. exact (f_equal Some Hip).
  - rewrite (step_submitted_nameless w _ i a0 Hidx Ha0) by exact Hname.
    simpl. rewrite list_lookup_insert_eq by exact Hlt. simpl.
    rewrite Hblank. reflexivity.
Qed.

End UnreachableProofs.

(** ** The entry reconciler *)

Section ReconcilerProofs.
Context `{Externals}.

Lemma append_appliance_conf_configured (acc : list DeviceConf) (a : LanDevice) :
  append_appliance_conf acc a
  = (acc ++ match configured a with Some d => [d] | None => [] end)%list.
Proof.
  unfold append_appliance_conf, configured, truthy.
  destruct (Lan.ip a) as [addr |]; [| rewrite app_nil_r; reflexivity].
  destruct (negb (String.eqb addr "") && negb (String.eqb addr IGNORED_IP_ADDRESS));
    [reflexivity | rewrite app_nil_r; reflexivity].
Qed.

Lemma fold_append_appliance_conf (apps : list LanDevice) (acc : list DeviceConf) :
  fold_left append_appliance_conf apps acc = (acc ++ omap configured apps)%list.
Proof.
  revert acc. induction apps as [| a apps IH]; intros acc; simpl.
  - rewrite app_nil_r. reflexivity.
  - rewrite IH, append_appliance_conf_configured.
    rewrite <- app_assoc. destruct (configured a); reflexivity.
Qed.

Lemma configured_spec (a : LanDevice) (d : DeviceConf) :
  configured a = Some d <->
  exists addr, Lan.ip a = Some addr /\ addr <> "" /\ addr <> IGNORED_IP_ADDRESS /\
               d = Dev.mk addr (Lan.id a) (Lan.name a) (Lan.type a)
                     (Lan.token a) (Lan.key a).
Proof.
  unfold configured, truthy. split.
  - destruct (Lan.ip a) as [addr |]; [| discriminate].
    destruct (String.eqb addr "") eqn:Eb; [discriminate |].
    destruct (String.eqb addr IGNORED_IP_ADDRESS) eqn:Ei; [discriminate |].
    simpl. intros Hd. inversion Hd; subst. exists addr.
    apply String.eqb_neq in Eb. apply String.eqb_neq in Ei. auto.
  - intros (addr & Hip & Hb & Hi & ->). rewrite Hip.
    apply String.eqb_neq in Hb. apply String.eqb_neq in Hi.
    rewrite Hb, Hi. reflexivity.
Qed.

(** The run of [_async_add_entry] on a session with a configuration that
    has a username. *)
Lemma add_entry_run (w : World) (conf : Dict) (username : string) :
  _conf (self w) = Some conf ->
  CONF_USERNAME conf = Some username ->
  let devices := omap configured (_appliances (self w)) in
  let data := set_CONF_DEVICES devices conf in
  let fl := set_conf (Some data)
              (set_context_unique_id (Some username)
                 (set_appliance_conf devices (self w))) in
  _async_add_entry w
  = match entry_with_unique_id username (config_entries (hass w)) with
    | Some entry =>
        (inr (Abort "reauth_successful"),
         mkWorld fl
           (mkHass (overwritten entry data (config_entries (hass w)))
              (tasks (hass w) ++ [Reload (entry_id entry)])%list)
           (trace w))
    | None =>
        (inr (CreateEntry "Midea Dehumidifiers" data), mkWorld fl (hass w) (trace w))
    end.
Proof.
  intros Hconf Huser devices data fl.
  unfold _async_add_entry.
  run_ok reflexivity. rewrite Hconf.
  run_ok reflexivity. run_ok reflexivity.
  cbn [self hass trace _appliances _appliance_conf set_appliance_conf].
  rewrite fold_append_appliance_conf. rewrite app_nil_l. fold devices.
  run_ok (unfold conf_get; run_ok reflexivity;
          cbn [self _conf set_appliance_conf]; rewrite Hconf; reflexivity).
  rewrite Huser. run_ok reflexivity.
  run_ok reflexivity. run_ok reflexivity. run_ok reflexivity.
  run_ok (unfold conf_get; run_ok reflexivity;
          cbn [self _conf set_conf set_context_unique_id set_appliance_conf];
          rewrite Hconf; reflexivity).
  fold data. cbn [self hass trace config_entries].
  fold (entry_with_unique_id username (config_entries (hass w))).
  destruct (entry_with_unique_id username (config_entries (hass w))) as [entry |].
  - run_ok reflexivity. run_ok reflexivity.
    subst fl. unfold ret, overwritten.
    destruct w as [[] [] ?]; simpl in *; subst; reflexivity.
  - subst fl. unfold ret.
    destruct w as [[] [] ?]; simpl in *; subst; reflexivity.
Qed.

Lemma entry_with_unique_id_Some (uid : string) (entries : list ConfigEntry)
    (entry : ConfigEntry) :
  entry_with_unique_id uid entries = Some entry ->
  entry ∈ entries /\ unique_id entry = Some uid.
Proof.
  unfold entry_with_unique_id. intros Hf. apply find_some in Hf.
  destruct Hf as [Hin Hb]. split.
  - apply list_elem_of_In. exact Hin.
  - apply bool_decide_eq_true in Hb. exact Hb.
Qed.

Lemma entry_with_unique_id_None (uid : string) (entries : list ConfigEntry) :
  entry_with_unique_id uid entries = None <->
  forall e, e ∈ entries -> unique_id e <> Some uid.
Proof.
  unfold entry_with_unique_id. split.
  - intros Hf e Hin Hu. apply list_elem_of_In in Hin.
    pose proof (find_none _ _ Hf e Hin) as Hb. simpl in Hb.
    apply bool_decide_eq_false in Hb. contradiction.
  - intros Hall. destruct (List.find _ entries) as [e |] eqn:Hf; [| reflexivity].
    apply find_some in Hf. destruct Hf as [Hin Hb].
    apply bool_decide_eq_true in Hb. apply list_elem_of_In in Hin.
    destruct (Hall e Hin Hb).
Qed.

Lemma overwritten_elem (entry : ConfigEntry) (data : Dict)
    (entries : list ConfigEntry) :
  entry ∈ entries ->
  mkEntry (entry_id entry) (unique_id entry) data ∈ overwritten entry data entries.
Proof.
  intros Hin. unfold overwritten. apply list_elem_of_In, in_map_iff.
  exists entry. rewrite String.eqb_refl. split; [reflexivity |].
  apply list_elem_of_In. exact Hin.
Qed.

(** C3: when the reconciler runs on a session with a configuration and a
    username, the device list it writes into the configuration (the data
    of the entry it creates or overwrites) holds, in the order of the
    appliances, exactly the appliances whose address is set (neither absent
    nor blank) and is not the ignored address, each as the record of its
    address, id, name, type, token and key; every other appliance is left
    out. *)
Theorem devices_are_resolved_appliances (w : World) (conf : Dict)
    (username : string) :
  _conf (self w) = Some conf ->
  CONF_USERNAME conf = Some username ->
  let r := fst (_async_add_entry w) in
  let w' := snd (_async_add_entry w) in
  exists devices data,
    _conf (self w') = Some data /\
    CONF_DEVICES data = Some devices /\
    (r = inr (CreateEntry "Midea Dehumidifiers" data) \/
     (r = inr (Abort "reauth_successful") /\
      exists entry, entry ∈ config_entries (hass w') /\ entry_data entry = data)) /\
    devices = omap configured (_appliances (self w)) /\
    (forall d, d ∈ devices <->
       exists a addr, a ∈ _appliances (self w) /\
         Lan.ip a = Some addr /\ addr <> "" /\ addr <> IGNORED_IP_ADDRESS /\
         d = Dev.mk addr (Lan.id a) (Lan.name a) (Lan.type a)
               (Lan.token a) (Lan.key a)).
Proof.
  intros Hconf Huser r w'. subst r w'.
  rewrite (add_entry_run w conf username Hconf Huser).
  exists (omap configured (_appliances (self w))).
  exists (set_CONF_DEVICES (omap configured (_appliances (self w))) conf).
  destruct (entry_with_unique_id username (config_entries (hass w)))
    as [entry |] eqn:Hfind; simpl.
  - repeat split; try reflexivity.
    + right. split; [reflexivity |].
      exists (mkEntry (entry_id entry) (unique_id entry)
                (set_CONF_DEVICES (omap configured (_appliances (self w))) conf)).
      split; [| reflexivity].
      apply overwritten_elem. eapply entry_with_unique_id_Some. exact Hfind.
    + intros Hd. apply list_elem_of_omap in Hd. destruct Hd as (a & Hin & Hc).
      apply configured_spec in Hc. destruct Hc as (addr & ?). exists a, addr.
      tauto.
    + intros (a & addr & Hin & Hrest). apply list_elem_of_omap. exists a.
      split; [exact Hin |]. apply configured_spec. exists addr. exact Hrest.
  - repeat split; try reflexivity.
    + left. reflexivity.
    + intros Hd. apply list_elem_of_omap in Hd. destruct Hd as (a & Hin & Hc).
      apply configured_spec in Hc. destruct Hc as (addr & ?). exists a, addr.
      tauto.
    + intros (a & addr & Hin & Hrest). apply list_elem_of_omap. exists a.
      split; [exact Hin |]. apply configured_spec. exists addr. exact Hrest.
Qed.

(** C4: when the reconciler runs and an entry whose unique id is the
    username exists, the data of that entry is overwritten with the new
    configuration, a reload of that entry is scheduled, no entry is added
    and the flow aborts with [reauth_successful]; when no entry has that
    unique id, the flow ends by creating an entry with the new
    configuration and the host's entries and tasks are as before. *)
Theorem reconciler_updates_or_creates (w : World) (conf : Dict)
    (username : string) :
  _conf (self w) = Some conf ->
  CONF_USERNAME conf = Some username ->
  let r := fst (_async_add_entry w) in
  let w' := snd (_async_add_entry w) in
  let data := set_CONF_DEVICES (omap configured (_appliances (self w))) conf in
  ((exists e, e ∈ config_entries (hass w) /\ unique_id e = Some username) ->
   exists entry,
     entry ∈ config_entries (hass w) /\ unique_id entry = Some username /\
     r = inr (Abort "reauth_successful") /\
     config_entries (hass w') = overwritten entry data (config_entries (hass w)) /\
     mkEntry (entry_id entry) (unique_id entry) data ∈ config_entries (hass w') /\
     length (config_entries (hass w')) = length (config_entries (hass w)) /\
     tasks (hass w') = (tasks (hass w) ++ [Reload (entry_id entry)])%list) /\
  ((forall e, e ∈ config_entries (hass w) -> unique_id e <> Some username) ->
   r = inr (CreateEntry "Midea Dehumidifiers" data) /\ hass w' = hass w).
Proof.
  intros Hconf Huser r w' data. subst r w'.
  rewrite (add_entry_run w conf username Hconf Huser). fold data.
  split.
  - intros (e & Hin & Hu).
    destruct (entry_with_unique_id username (config_entries (hass w)))
      as [entry |] eqn:Hfind.
    + destruct (entry_with_unique_id_Some _ _ _ Hfind) as [Hin' Hu'].
      exists entry. simpl. repeat split; try assumption.
      * apply overwritten_elem. exact Hin'.
      * unfold overwritten. apply length_map.
    + pose proof (proj1 (entry_with_unique_id_None _ _) Hfind e Hin) as Hne.
      contradiction.
  - intros Hnone. apply entry_with_unique_id_None in Hnone.
    rewrite Hnone. simpl. split; reflexivity.
Qed.

End ReconcilerProofs.

(** ** The advanced-options step *)

Section AdvancedProofs.
Context `{Externals}.

Lemma or_str_nonblank (v d : string) : v <> "" -> or_str (Some v) d = v.
Proof.
  intros Hv. unfold or_str. apply String.eqb_neq in Hv. rewrite Hv. reflexivity.
Qed.

Lemma or_int_nonzero (v d : Z) : v <> 0 -> or_int (Some v) d = v.
Proof.
  intros Hv. unfold or_int. apply Z.eqb_neq in Hv. rewrite Hv. reflexivity.
Qed.

Lemma advanced_schema_retained_nonblank (conf user_input : Dict) :
  retained_nonblank (advanced_schema conf user_input) user_input.
Proof.
  unfold retained_nonblank, advanced_schema. simpl. repeat split.
  - intros v -> Hv. rewrite or_str_nonblank by exact Hv. reflexivity.
  - intros v -> Hv. rewrite or_str_nonblank by exact Hv. reflexivity.
  - intros v -> Hv. rewrite or_str_nonblank by exact Hv. reflexivity.
  - intros v -> Hv. rewrite or_int_nonzero by exact Hv. reflexivity.
  - intros v ->. unfold or_str. destruct (String.eqb v "") eqn:E; [| reflexivity].
    apply String.eqb_eq in E. subst. reflexivity.
Qed.

Lemma validate_invalid_appkey (w : World) (conf user_input : Dict) :
  _advanced_options (self w) = true ->
  _conf (self w) = Some conf ->
  CONF_APPKEY user_input = None \/ CONF_APPID user_input = None ->
  _validate_discovery_phase (Some user_input) w
  = (inl (FlowException "invalid_appkey" None), w).
Proof.
  intros Hadv Hconf Hmiss.
  unfold _validate_discovery_phase, _validate_discovery_phase_.
  run_ok reflexivity. rewrite Hadv, Hconf.
  run_exn (instantiate (1 := w); instantiate (1 := FlowException "invalid_appkey" None);
           destruct Hmiss as [-> | ->];
           [ reflexivity
           | destruct (CONF_APPKEY user_input); reflexivity ]).
  reflexivity.
Qed.

(** C6, as amended: a submission to the advanced-options step that lacks
    the app key or the app id (one of them, or both) fails with
    [invalid_appkey]: the form is shown again with that error, nothing is
    sent to the cloud and the configuration of the session is untouched.
    The form offers again every submitted value that is not blank (not
    zero for the app id); a blank username or password falls back to the
    one of the session, a blank app key or a zero app id to the default. *)
Theorem advanced_options_needs_both (w : World) (conf user_input : Dict) :
  _conf (self w) = Some conf ->
  CONF_APPKEY user_input = None \/ CONF_APPID user_input = None ->
  let schema := advanced_schema conf user_input in
  async_step_advanced_options (Some user_input) w
  = (inr (ShowForm "advanced_options" schema
            (mkPlaceholders "" NAME None None) (Some "invalid_appkey")),
     mkWorld (set_cause None (set_advanced_options true (self w)))
       (hass w) (trace w)) /\
  retained_nonblank schema user_input.
Proof.
  intros Hconf Hmiss schema. split; [| apply advanced_schema_retained_nonblank].
  unfold async_step_advanced_options, async_step_advanced_options_.
  run_ok reflexivity. run_ok reflexivity.
  run_ok (unfold conf_get; run_ok reflexivity; cbn; rewrite Hconf; reflexivity).
  erewrite try_except_handled;
    [| apply (validate_invalid_appkey _ conf); [reflexivity | exact Hconf | exact Hmiss]
     | reflexivity ].
  run_ok reflexivity.
  run_ok (unfold placeholders; run_ok reflexivity; reflexivity).
  unfold ret, schema, advanced_schema.
  destruct w as [[] ? ?]; reflexivity.
Qed.

End AdvancedProofs.

(** ** The credential step *)

Section CredentialProofs.
Context `{Externals}.

Lemma bind_assoc {S A B C} (m : St S A) (k1 : A -> St S B) (k2 : B -> St S C)
    (s : S) :
  bind (bind m k1) k2 s = bind m (fun a => bind (k1 a) k2) s.
Proof. unfold bind. destruct (m s) as [[e | a] s']; reflexivity. Qed.

Lemma step_none_preserves_app :
  preserves session_app (async_step_unreachable_appliance None).
Proof.
  unfold async_step_unreachable_appliance, async_step_unreachable_appliance_,
    unreachable_appliance_form, appliances_getitem, appliance_at, placeholders.
  preserving.
Qed.

Lemma add_entry_preserves_app : preserves session_app _async_add_entry.
Proof.
  unfold _async_add_entry, async_set_unique_id, async_update_entry,
    async_create_task.
  preserving.
Qed.

Lemma discover_preserves_app : preserves session_app discover_and_continue.
Proof.
  unfold discover_and_continue, connect_and_discover.
  preserving;
    first [ apply step_none_preserves_app | apply add_entry_preserves_app ].
Qed.

Lemma advanced_form_preserves_app validate :
  preserves session_app (async_step_advanced_options_ validate None).
Proof.
  unfold async_step_advanced_options_, placeholders.
  preserving.
Qed.

(** The credential branch of [_validate_discovery_phase] once the app key
    and the app id are in the configuration. *)
Lemma credential_tail_preserves_app (user_input : Dict) (w : World) :
  session_app
    (snd (bind
            (let* advanced :=
               getitem "advanced_options" (CONF_ADVANCED_OPTIONS user_input) in
             if (advanced : bool)
             then let* r := async_step_advanced_options_
                              (fun _ => raise RecursionError) None in
                  ret (Some r)
             else ret None)
            (fun returned =>
               match returned with
               | Some r => ret r
               | None => discover_and_continue
               end) w))
  = session_app w.
Proof.
  revert w.
  change (preserves session_app
            (bind
               (let* advanced :=
                  getitem "advanced_options" (CONF_ADVANCED_OPTIONS user_input) in
                if (advanced : bool)
                then let* r := async_step_advanced_options_
                                 (fun _ => raise RecursionError) None in
                     ret (Some r)
                else ret None)
               (fun returned =>
                  match returned with
                  | Some r => ret r
                  | None => discover_and_continue
                  end))).
  preserving;
    first [ apply advanced_form_preserves_app | apply discover_preserves_app ].
Qed.

Lemma truthy_nonblank (v : string) : v <> "" -> truthy (Some v) = true.
Proof.
  intros Hv. unfold truthy. apply String.eqb_neq in Hv. rewrite Hv. reflexivity.
Qed.

Lemma app_from_table (w : World) (user_input : Dict) (app : string)
    (entry : AppEntry) :
  _advanced_options (self w) = false ->
  CONF_MOBILE_APP user_input = Some app -> app <> "" ->
  SUPPORTED_APPS !! app = Some entry ->
  session_app (snd (_validate_discovery_phase (Some user_input) w))
  = Some (Some (app_appkey entry), Some (app_appid entry)).
Proof.
  intros Hadv Happ Hne Htable.
  unfold _validate_discovery_phase, _validate_discovery_phase_.
  run_ok reflexivity. rewrite Hadv.
  rewrite bind_assoc. run_ok reflexivity.
  rewrite Happ, (truthy_nonblank app Hne).
  rewrite bind_assoc, bind_assoc. run_ok reflexivity.
  rewrite Htable.
  rewrite bind_assoc. run_ok reflexivity. run_ok reflexivity.
  rewrite credential_tail_preserves_app. reflexivity.
Qed.

Lemma app_defaults (w : World) (user_input : Dict) :
  _advanced_options (self w) = false ->
  truthy (CONF_MOBILE_APP user_input) = false ->
  session_app (snd (_validate_discovery_phase (Some user_input) w))
  = Some (Some DEFAULT_APPKEY, Some DEFAULT_APP_ID).
Proof.
  intros Hadv Happ.
  unfold _validate_discovery_phase, _validate_discovery_phase_.
  run_ok reflexivity. rewrite Hadv.
  rewrite bind_assoc. run_ok reflexivity.
  rewrite Happ.
  rewrite bind_assoc, bind_assoc. run_ok reflexivity. run_ok reflexivity.
  rewrite credential_tail_preserves_app. reflexivity.
Qed.

Lemma app_unknown (w : World) (user_input : Dict) (app : string) :
  _advanced_options (self w) = false ->
  CONF_MOBILE_APP user_input = Some app -> app <> "" ->
  SUPPORTED_APPS !! app = None ->
  _validate_discovery_phase (Some user_input) w
  = (inl (FlowException "invalid_app_name" (Some app)),
     mkWorld (set_conf (Some user_input) (self w)) (hass w) (trace w)).
Proof.
  intros Hadv Happ Hne Htable.
  unfold _validate_discovery_phase, _validate_discovery_phase_.
  run_ok reflexivity. rewrite Hadv.
  rewrite bind_assoc. run_ok reflexivity.
  rewrite Happ, (truthy_nonblank app Hne).
  rewrite bind_assoc, bind_assoc. run_ok reflexivity.
  rewrite Htable.
  run_exn reflexivity. reflexivity.
Qed.

Lemma step_none_extends_trace :
  extends_trace (async_step_unreachable_appliance None).
Proof.
  unfold async_step_unreachable_appliance, async_step_unreachable_appliance_,
    unreachable_appliance_form, appliances_getitem, appliance_at, placeholders.
  extending.
Qed.

Lemma add_entry_extends_trace : extends_trace _async_add_entry.
Proof.
  unfold _async_add_entry, async_set_unique_id, async_update_entry,
    async_create_task.
  extending.
Qed.

(** Discovery calls the cloud with the credentials of the configuration,
    and, once connected, searches the networks of the configuration. *)
Lemma discover_calls (w : World) (conf : Dict) (account password appkey : string)
    (appid : Z) :
  _conf (self w) = Some conf ->
  CONF_USERNAME conf = Some account -> CONF_PASSWORD conf = Some password ->
  CONF_APPKEY conf = Some appkey -> CONF_APPID conf = Some appid ->
  CONF_NETWORK_RANGE conf = None ->
  exists rest,
    trace (snd (discover_and_continue w))
    = (trace w ++ CallConnect account password appkey appid :: rest)%list /\
    forall cloud, connect_to_cloud account password appkey appid = Connected cloud ->
                  exists rest', rest = CallFind cloud [] :: rest'.
Proof.
  intros Hconf Hu Hp Hk Hi Hn.
  unfold discover_and_continue. run_ok reflexivity.
  unfold connect_and_discover. rewrite bind_assoc.
  run_ok (unfold conf_get; run_ok reflexivity; cbn; rewrite Hconf; reflexivity).
  rewrite Hu, Hp, Hk, Hi, Hn.
  rewrite bind_assoc. run_ok reflexivity.
  rewrite bind_assoc. run_ok reflexivity.
  rewrite bind_assoc. run_ok reflexivity.
  rewrite bind_assoc. run_ok reflexivity.
  rewrite bind_assoc. run_ok reflexivity.
  destruct (connect_to_cloud account password appkey appid) as [cloud | | code m].
  - rewrite bind_assoc. run_ok reflexivity.
    match goal with
    | |- context [snd (bind ?m ?k ?w0)] =>
        assert (Hg : extends_trace (bind m k))
    end.
    { extending;
        first [ apply step_none_extends_trace | apply add_entry_extends_trace ]. }
    match goal with
    | |- context [snd (bind ?m ?k ?w0)] =>
        pose proof (Hg w0) as Hgw; unfold trace_grows in Hgw;
        set (w' := snd (bind m k w0)) in *;
        destruct Hgw as [more Hmore]
    end.
    rewrite Hmore. cbn [trace]. exists (CallFind cloud [] :: more). split.
    + rewrite <- !app_assoc. reflexivity.
    + intros cloud' Hc. inversion Hc; subst. exists more. reflexivity.
  - run_exn reflexivity. cbn. exists []. split; [reflexivity |].
    intros cloud Hc. discriminate.
  - run_exn reflexivity. cbn. exists []. split; [reflexivity |].
    intros cloud Hc. discriminate.
Qed.

(** C7: on a submission of the credential step (reached with the advanced
    flag of the session off), a profile name that is supplied and is in
    the table of supported apps sets the app key and app id of the session
    from its entry; a supplied name that is not in the table raises
    [invalid_app_name] with the name; without a profile name (absent or
    blank) the defaults are set. With profile NetHome, the advanced toggle
    off and no network range, the cloud is called with the account, the
    password and the app key and app id of the NetHome entry, and once
    connected discovery searches an empty list of networks. *)
Theorem credential_stage_resolves_app (w : World) (user_input : Dict) :
  _advanced_options (self w) = false ->
  let w' := snd (_validate_discovery_phase (Some user_input) w) in
  (forall app entry,
     CONF_MOBILE_APP user_input = Some app -> app <> "" ->
     SUPPORTED_APPS !! app = Some entry ->
     session_app w' = Some (Some (app_appkey entry), Some (app_appid entry))) /\
  (forall app,
     CONF_MOBILE_APP user_input = Some app -> app <> "" ->
     SUPPORTED_APPS !! app = None ->
     _validate_discovery_phase (Some user_input) w
     = (inl (FlowException "invalid_app_name" (Some app)),
        mkWorld (set_conf (Some user_input) (self w)) (hass w) (trace w))) /\
  (truthy (CONF_MOBILE_APP user_input) = false ->
   session_app w' = Some (Some DEFAULT_APPKEY, Some DEFAULT_APP_ID)) /\
  (forall account password entry,
     CONF_USERNAME user_input = Some account ->
     CONF_PASSWORD user_input = Some password ->
     CONF_MOBILE_APP user_input = Some "NetHome" ->
     CONF_ADVANCED_OPTIONS user_input = Some false ->
     CONF_NETWORK_RANGE user_input = None ->
     SUPPORTED_APPS !! "NetHome" = Some entry ->
     exists rest,
       trace w'
       = (trace w ++ CallConnect account password (app_appkey entry)
                       (app_appid entry) :: rest)%list /\
       forall cloud,
         connect_to_cloud account password (app_appkey entry) (app_appid entry)
         = Connected cloud ->
         exists rest', rest = CallFind cloud [] :: rest').
Proof.
  intros Hadv w'. subst w'. split; [| split; [| split]].
  - intros app entry Happ Hne Htable. apply (app_from_table w user_input app entry);
      assumption.
  - intros app Happ Hne Htable. apply app_unknown; assumption.
  - intros Happ. apply app_defaults; assumption.
  - intros account password entry Hu Hp Happ Hadvanced Hn Htable.
    unfold _validate_discovery_phase, _validate_discovery_phase_.
    run_ok reflexivity. rewrite Hadv.
    rewrite bind_assoc. run_ok reflexivity.
    rewrite Happ. cbn [truthy String.eqb Ascii.eqb Bool.eqb negb].
    rewrite bind_assoc, bind_assoc. run_ok reflexivity.
    rewrite Htable.
    rewrite bind_assoc. run_ok reflexivity. run_ok reflexivity.
    rewrite Hadvanced. rewrite bind_assoc. run_ok reflexivity.
    run_ok reflexivity. cbv iota.
    match goal with
    | |- context [discover_and_continue ?w2] =>
        destruct (discover_calls w2
                    (set_CONF_APPID (app_appid entry)
                       (set_CONF_APPKEY (app_appkey entry) user_input))
                    account password (app_appkey entry) (app_appid entry)
                    eq_refl Hu Hp eq_refl eq_refl Hn) as (rest & Ht & Hc)
    end.
    exists rest. split; [exact Ht | exact Hc].
Qed.

End CredentialProofs.

(** ** The visits of the unreachable-appliance step *)

Section VisitProofs.
Context `{Externals}.

Lemma unresolved_from_ge (n : nat) (l : list LanDevice) :
  (length l <= n)%nat -> unresolved_from n l = [].
Proof.
  intros Hn. unfold unresolved_from.
  replace (length l - n)%nat with 0%nat by lia. reflexivity.
Qed.

Lemma unresolved_from_lt (n : nat) (l : list LanDevice) :
  (n < length l)%nat ->
  unresolved_from n l
  = if is_unresolved l n then n :: unresolved_from (S n) l
    else unresolved_from (S n) l.
Proof.
  intros Hn. unfold unresolved_from.
  replace (length l - n)%nat with (S (length l - S n)) by lia.
  simpl seq. rewrite filter_cons.
  destruct (is_unresolved l n); case_decide; congruence.
Qed.

Lemma unresolved_from_head (l : list LanDevice) (n j : nat) (us : list nat) :
  unresolved_from n l = j :: us ->
  (n <= j < length l)%nat /\ is_unresolved l j = true /\
  us = unresolved_from (S j) l.
Proof.
  remember (length l - n)%nat as k eqn:Hk. revert n Hk.
  induction k as [| k IH]; intros n Hk Hu.
  - rewrite unresolved_from_ge in Hu by lia. discriminate.
  - rewrite unresolved_from_lt in Hu by lia.
    destruct (is_unresolved l n) eqn:En.
    + inversion Hu; subst. repeat split; try lia. exact En.
    + destruct (IH (S n) ltac:(lia) Hu) as (Hj & Hun & Hus).
      repeat split; try lia; assumption.
Qed.

Lemma is_unresolved_insert_ne (l : list LanDevice) (i j : nat) (x : LanDevice) :
  i <> j -> is_unresolved (<[i := x]> l) j = is_unresolved l j.
Proof.
  intros Hij. unfold is_unresolved. rewrite list_lookup_insert_ne by exact Hij.
  reflexivity.
Qed.

Lemma unresolved_from_insert (l : list LanDevice) (i n : nat) (x : LanDevice) :
  (i < n)%nat -> unresolved_from n (<[i := x]> l) = unresolved_from n l.
Proof.
  remember (length l - n)%nat as k eqn:Hk. revert n Hk.
  induction k as [| k IH]; intros n Hk Hin.
  - rewrite !unresolved_from_ge by (rewrite ?length_insert; lia). reflexivity.
  - rewrite (unresolved_from_lt n (<[i := x]> l)) by (rewrite length_insert; lia).
    rewrite (unresolved_from_lt n l) by lia.
    rewrite is_unresolved_insert_ne by lia.
    rewrite (IH (S n)) by lia. reflexivity.
Qed.

Lemma id_at_insert_ne (l : list LanDevice) (i j : nat) (x : LanDevice) :
  i <> j -> id_at (<[i := x]> l) j = id_at l j.
Proof.
  intros Hij. unfold id_at. rewrite list_lookup_insert_ne by exact Hij.
  reflexivity.
Qed.

Lemma with_idx_twice (z1 z2 : Z) (w : World) :
  with_idx z2 (with_idx z1 w) = with_idx z2 w.
Proof. reflexivity. Qed.

Lemma with_idx_same (w : World) : with_idx (_appliance_idx (self w)) w = w.
Proof. destruct w as [[] ? ?]. reflexivity. Qed.

(** The step called without input shows the form for the appliance at
    the cursor. *)
Lemma step_none_run (step_again : M FlowResult) (w : World) (j : nat)
    (a : LanDevice) :
  _appliance_idx (self w) = Z.of_nat j ->
  _appliances (self w) !! j = Some a ->
  async_step_unreachable_appliance_ step_again None w
  = (inr (ShowForm "unreachable_appliance"
            (mkDict None None None None None None None
               (Some false) (Some IGNORED_IP_ADDRESS) (Some (Lan.name a))
               None None None)
            (mkPlaceholders "" NAME (Some (Lan.id a)) (Some (Lan.name a)))
            None),
     with_cause (Some "") w).
Proof.
  intros Hidx Ha.
  assert (Hlt : (j < length (_appliances (self w)))%nat)
    by (eapply lookup_lt_Some; exact Ha).
  unfold async_step_unreachable_appliance_.
  run_ok reflexivity.
  run_ok (apply appliances_getitem_run; cbn [self set_cause _appliances _appliance_idx];
          rewrite Hidx; apply py_index_of_nat; exact Hlt).
  unfold unreachable_appliance_form.
  run_ok (apply appliance_at_run; exact Ha).
  run_ok reflexivity. reflexivity.
Qed.

(** The [while] loop stops on the first unresolved position from the
    cursor on, or leaves the cursor at the end of the list. *)
Lemma find_next_spec (step_again : M FlowResult) (fuel : nat) :
  forall (w : World) (n : nat),
    _appliance_idx (self w) = Z.of_nat n ->
    (length (_appliances (self w)) - n <= fuel)%nat ->
    find_next_unreachable step_again fuel w
    = match unresolved_from n (_appliances (self w)) with
      | j :: _ =>
          bind step_again (fun r => ret (Some r)) (with_idx (Z.of_nat j) w)
      | [] =>
          (inr None,
           with_idx (Z.of_nat (Nat.max n (length (_appliances (self w))))) w)
      end.
Proof.
  induction fuel as [| fuel IH]; intros w n Hidx Hfuel.
  - rewrite unresolved_from_ge by lia. simpl.
    replace (Nat.max n (length (_appliances (self w)))) with n by lia.
    rewrite <- Hidx, with_idx_same. reflexivity.
  - simpl. run_ok reflexivity. unfold appliances_len. rewrite Hidx.
    destruct (Z.of_nat n <? Z.of_nat (length (_appliances (self w)))) eqn:Elt.
    + apply Z.ltb_lt in Elt.
      assert (Hlt : (n < length (_appliances (self w)))%nat) by lia.
      destruct (lookup_lt_is_Some_2 _ _ Hlt) as [a Ha].
      run_ok (apply appliances_getitem_run; rewrite Hidx;
              apply py_index_of_nat; exact Hlt).
      run_ok (apply appliance_at_run; exact Ha).
      rewrite unresolved_from_lt by exact Hlt.
      unfold is_unresolved. rewrite Ha.
      destruct (Lan.ip a) as [addr |] eqn:Eip.
      * rewrite bool_decide_eq_false_2 by discriminate.
        run_ok reflexivity.
        rewrite (IH _ (S n)); cbn [self set_appliance_idx _appliance_idx _appliances];
          [| rewrite Hidx; lia | lia].
        destruct (unresolved_from (S n) (_appliances (self w))) as [| j us] eqn:Eu.
        -- f_equal. unfold with_idx. cbn.
           replace (Nat.max (S n) (length (_appliances (self w))))
             with (Nat.max n (length (_appliances (self w)))) by lia.
           reflexivity.
        -- reflexivity.
      * rewrite bool_decide_eq_true_2 by reflexivity.
        rewrite <- Hidx, with_idx_same. reflexivity.
    + apply Z.ltb_ge in Elt.
      rewrite unresolved_from_ge by lia. unfold ret.
      replace (Nat.max n (length (_appliances (self w)))) with n by lia.
      rewrite <- Hidx, with_idx_same. reflexivity.
Qed.

Lemma run_validate_accepted (w : World) (i : nat) (a a' : LanDevice) (b : bool)
    (tr' : list Event) :
  _appliances (self w) !! i = Some a ->
  validate_appliance (_cloud (self w)) (a, trace w) = (inr b, (a', tr')) ->
  run_validate_appliance i w
  = (inr b,
     mkWorld (set_appliances (<[i := a']> (_appliances (self w))) (self w))
       (hass w) tr').
Proof.
  intros Ha Hv. unfold run_validate_appliance. rewrite Ha, Hv. reflexivity.
Qed.

(** An accepted submission moves the cursor to the next unresolved
    position and shows the form for the appliance there. *)
Lemma step_accepted_next (w : World) (user_input : Dict) (i j : nat)
    (a0 a' aj : LanDevice) (name : string) (b : bool) (tr' : list Event)
    (us : list nat) :
  _appliance_idx (self w) = Z.of_nat i ->
  _appliances (self w) !! i = Some a0 ->
  CONF_NAME user_input = Some name ->
  validate_appliance (_cloud (self w)) (submitted user_input name a0, trace w)
  = (inr b, (a', tr')) ->
  unresolved_from (S i) (_appliances (self w)) = j :: us ->
  _appliances (self w) !! j = Some aj ->
  async_step_unreachable_appliance (Some user_input) w
  = (inr (form_for aj), with_idx (Z.of_nat j) (validated i a' tr' w)).
Proof.
  intros Hidx Ha0 Hname Hval Hus Haj.
  assert (Hlt : (i < length (_appliances (self w)))%nat)
    by (eapply lookup_lt_Some; exact Ha0).
  destruct (unresolved_from_head _ _ _ _ Hus) as (Hj & _ & _).
  rewrite (step_submitted w user_input i a0 name)
    by (first [ rewrite Hidx; apply py_index_of_nat; exact Hlt | assumption ]).
  erewrite validate_and_advance_valid;
    [| apply (run_validate_accepted _ i (submitted user_input name a0) a' b tr');
       [ apply with_appliance_lookup; exact Hlt | exact Hval ] ].
  cbn [self hass trace with_appliance with_cause set_appliances _appliances].
  rewrite list_insert_insert_eq.
  match goal with
  | |- after_validation _ _ ?W = _ => change W with (validated i a' tr' w)
  end.
  set (step_again := async_step_unreachable_appliance_ (raise RecursionError) None).
  assert (Hloop :
    find_next_unreachable step_again
      (Z.to_nat (appliances_len (self (with_idx (Z.of_nat (S i)) (validated i a' tr' w)))
                 - Z.of_nat (S i)))
      (with_idx (Z.of_nat (S i)) (validated i a' tr' w))
    = (inr (Some (form_for aj)), with_idx (Z.of_nat j) (validated i a' tr' w))).
  { rewrite (find_next_spec step_again _ _ (S i)); [| reflexivity |].
    - cbn [with_idx validated self set_appliance_idx set_appliances _appliances].
      rewrite unresolved_from_insert by lia. rewrite Hus.
      subst step_again.
      run_ok (apply (step_none_run _ _ j aj);
              [ reflexivity
              | cbn; rewrite list_lookup_insert_ne by lia; exact Haj ]).
      reflexivity.
    - unfold appliances_len. lia. }
  unfold after_validation.
  run_ok (apply try_except_ok; run_ok reflexivity; run_ok reflexivity;
          cbn [self set_appliance_idx _appliance_idx validated set_appliances
                 set_cause];
          rewrite Hidx;
          replace (Z.of_nat i + 1) with (Z.of_nat (S i)) by lia;
          run_ok (exact Hloop); reflexivity).
  reflexivity.
Qed.

(** An accepted submission at the last unresolved position hands the flow
    to the reconciler, with the cursor at the end of the list. *)
Lemma step_accepted_last (w : World) (user_input : Dict) (i : nat)
    (a0 a' : LanDevice) (name : string) (b : bool) (tr' : list Event)
    (conf : Dict) (username : string) :
  _appliance_idx (self w) = Z.of_nat i ->
  _appliances (self w) !! i = Some a0 ->
  CONF_NAME user_input = Some name ->
  validate_appliance (_cloud (self w)) (submitted user_input name a0, trace w)
  = (inr b, (a', tr')) ->
  unresolved_from (S i) (_appliances (self w)) = [] ->
  _conf (self w) = Some conf ->
  CONF_USERNAME conf = Some username ->
  async_step_unreachable_appliance (Some user_input) w
  = _async_add_entry
      (with_idx (Z.of_nat (length (_appliances (self w)))) (validated i a' tr' w)).
Proof.
  intros Hidx Ha0 Hname Hval Hus Hconf Huser.
  assert (Hlt : (i < length (_appliances (self w)))%nat)
    by (eapply lookup_lt_Some; exact Ha0).
  rewrite (step_submitted w user_input i a0 name)
    by (first [ rewrite Hidx; apply py_index_of_nat; exact Hlt | assumption ]).
  erewrite validate_and_advance_valid;
    [| apply (run_validate_accepted _ i (submitted user_input name a0) a' b tr');
       [ apply with_appliance_lookup; exact Hlt | exact Hval ] ].
  cbn [self hass trace with_appliance with_cause set_appliances _appliances].
  rewrite list_insert_insert_eq.
  match goal with
  | |- after_validation _ _ ?W = _ => change W with (validated i a' tr' w)
  end.
  set (step_again := async_step_unreachable_appliance_ (raise RecursionError) None).
  set (wn := with_idx (Z.of_nat (length (_appliances (self w)))) (validated i a' tr' w)).
  assert (Hloop :
    find_next_unreachable step_again
      (Z.to_nat (appliances_len (self (with_idx (Z.of_nat (S i)) (validated i a' tr' w)))
                 - Z.of_nat (S i)))
      (with_idx (Z.of_nat (S i)) (validated i a' tr' w))
    = (inr None, wn)).
  { rewrite (find_next_spec step_again _ _ (S i)); [| reflexivity |].
    - cbn [with_idx validated self set_appliance_idx set_appliances _appliances].
      rewrite unresolved_from_insert by lia. rewrite Hus.
      rewrite length_insert.
      replace (Nat.max (S i) (length (_appliances (self w))))
        with (length (_appliances (self w))) by lia.
      reflexivity.
    - unfold appliances_len. lia. }
  destruct (_async_add_entry wn) as [[e | r] w'] eqn:Hadd.
  { rewrite (add_entry_run wn conf username Hconf Huser) in Hadd.
    destruct (entry_with_unique_id username (config_entries (hass wn)));
      discriminate. }
  unfold after_validation.
  run_ok (apply try_except_ok; run_ok reflexivity; run_ok reflexivity;
          cbn [self set_appliance_idx _appliance_idx validated set_appliances
                 set_cause];
          rewrite Hidx;
          replace (Z.of_nat i + 1) with (Z.of_nat (S i)) by lia;
          run_ok (exact Hloop); cbv iota;
          run_ok reflexivity;
          (replace (appliances_len (self wn) <=? _appliance_idx (self wn))
             with true
             by (symmetry; apply Z.leb_le; unfold appliances_len; subst wn;
                 cbn; rewrite length_insert; lia));
          run_ok (exact Hadd); reflexivity).
  reflexivity.
Qed.

Lemma unresolved_from_lower (l : list LanDevice) (n x : nat) :
  x ∈ unresolved_from n l -> (n <= x)%nat.
Proof.
  unfold unresolved_from. intros Hx. apply list_elem_of_filter in Hx.
  destruct Hx as [_ Hx]. apply elem_of_seq in Hx. lia.
Qed.

Lemma last_cons_reconciled (r : FlowResult) (rs : list FlowResult) :
  reconciled (last rs) -> last (r :: rs) = last rs.
Proof.
  destruct rs as [| r' rs]; [| reflexivity].
  intros [[data Hd] | Hd]; discriminate.
Qed.

Lemma shown_appliances_form (a : LanDevice) (rs : list FlowResult) :
  shown_appliances (form_for a :: rs) = Lan.id a :: shown_appliances rs.
Proof. reflexivity. Qed.

(** From a shown form on, accepted submissions visit the remaining
    unresolved positions in order, one per submission, and the last one
    hands the flow to the reconciler. *)
Lemma run_visits (us : list nat) :
  forall (inputs : list Dict) (w : World) (i : nat) (a0 : LanDevice)
         (conf : Dict) (username : string) schema ph errors,
    _appliance_idx (self w) = Z.of_nat i ->
    _appliances (self w) !! i = Some a0 ->
    _conf (self w) = Some conf ->
    CONF_USERNAME conf = Some username ->
    unresolved_from (S i) (_appliances (self w)) = us ->
    Forall (accepted (_cloud (self w))) inputs ->
    length inputs = S (length us) ->
    exists results w',
      run_flow (ShowForm "unreachable_appliance" schema ph errors) inputs w
      = (inr results, w') /\
      shown_appliances results = map (id_at (_appliances (self w))) us /\
      reconciled (last results).
Proof.
  induction us as [| j us IH];
    intros inputs w i a0 conf username schema ph errors
           Hidx Ha0 Hconf Huser Hus Hacc Hlen.
  - destruct inputs as [| user_input [| ? ?]]; try discriminate.
    apply Forall_cons in Hacc. destruct Hacc as [(name & Hname & Hval) _].
    destruct (Hval a0 (trace w)) as (b & [a' tr'] & Hv).
    cbn [run_flow]. unfold submit. cbn [String.eqb Ascii.eqb Bool.eqb].
    pose proof (step_accepted_last w user_input i a0 a' name b tr' conf username
                  Hidx Ha0 Hname Hv Hus Hconf Huser) as Hstep.
    rewrite (add_entry_run
               (with_idx (Z.of_nat (length (_appliances (self w))))
                  (validated i a' tr' w))
               conf username Hconf Huser) in Hstep.
    match type of Hstep with
    | _ = match ?x with _ => _ end => destruct x as [entry |]
    end.
    + run_ok (exact Hstep). cbn [run_flow]. run_ok reflexivity.
      eexists. eexists. split; [reflexivity |].
      split; [reflexivity | right; reflexivity].
    + run_ok (exact Hstep). cbn [run_flow]. run_ok reflexivity.
      eexists. eexists. split; [reflexivity |].
      split; [reflexivity | left; eexists; reflexivity].
  - destruct inputs as [| user_input rest]; try discriminate.
    apply Forall_cons in Hacc. destruct Hacc as [(name & Hname & Hval) Hrest].
    destruct (Hval a0 (trace w)) as (b & [a' tr'] & Hv).
    destruct (unresolved_from_head _ _ _ _ Hus) as (Hj & _ & Hus').
    assert (Hlt : (i < length (_appliances (self w)))%nat)
      by (eapply lookup_lt_Some; exact Ha0).
    destruct (lookup_lt_is_Some_2 (_appliances (self w)) j ltac:(lia)) as [aj Haj].
    pose proof (step_accepted_next w user_input i j a0 a' aj name b tr' us
                  Hidx Ha0 Hname Hv Hus Haj) as Hstep.
    set (wj := with_idx (Z.of_nat j) (validated i a' tr' w)) in *.
    destruct (IH rest wj j aj conf username
                (mkDict None None None None None None None
                   (Some false) (Some IGNORED_IP_ADDRESS) (Some (Lan.name aj))
                   None None None)
                (mkPlaceholders "" NAME (Some (Lan.id aj)) (Some (Lan.name aj)))
                None)
      as (results & w' & Hrun & Hshown & Hlast).
    + reflexivity.
    + subst wj. cbn [with_idx validated self set_appliance_idx set_appliances _appliances].
      rewrite list_lookup_insert_ne by lia. exact Haj.
    + exact Hconf.
    + exact Huser.
    + subst wj. cbn [with_idx validated self set_appliance_idx set_appliances _appliances].
      rewrite unresolved_from_insert by lia. symmetry. exact Hus'.
    + exact Hrest.
    + simpl in Hlen. lia.
    + cbn [run_flow]. unfold submit. cbn [String.eqb Ascii.eqb Bool.eqb].
      run_ok (exact Hstep). unfold form_for at 1.
      run_ok (exact Hrun).
      exists (form_for aj :: results), w'. split; [reflexivity |].
      split.
      * rewrite shown_appliances_form. cbn [map]. f_equal.
        -- unfold id_at. rewrite Haj. reflexivity.
        -- rewrite Hshown. apply map_ext_in. intros x Hx.
           subst wj. cbn [with_idx validated self set_appliance_idx set_appliances _appliances].
           apply id_at_insert_ne.
           apply list_elem_of_In in Hx. rewrite Hus' in Hx.
           apply unresolved_from_lower in Hx. lia.
      * rewrite last_cons_reconciled by exact Hlast. exact Hlast.
Qed.

Lemma connect_and_discover_run (w : World) (conf : Dict)
    (account password appkey : string) (appid : Z) (cloud : MideaCloud) :
  _conf (self w) = Some conf ->
  CONF_USERNAME conf = Some account -> CONF_PASSWORD conf = Some password ->
  CONF_APPKEY conf = Some appkey -> CONF_APPID conf = Some appid ->
  connect_to_cloud account password appkey appid = Connected cloud ->
  connect_and_discover w
  = (inr tt, discovered_world account password appkey appid cloud conf w).
Proof.
  intros Hconf Hu Hp Hk Hi Hc.
  unfold connect_and_discover.
  run_ok (unfold conf_get; run_ok reflexivity; rewrite Hconf; reflexivity).
  rewrite Hu, Hp, Hk, Hi.
  do 4 run_ok reflexivity. run_ok reflexivity.
  rewrite Hc. fold (networks_of conf).
  run_ok reflexivity. run_ok reflexivity.
  unfold discovered_world, self_modify, modify. cbn.
  rewrite <- app_assoc. reflexivity.
Qed.

Lemma first_without_ip_spec (l : list LanDevice) :
  Forall (fun a => Lan.ip a <> Some "") l ->
  forall n,
    first_without_ip (Z.of_nat n) (drop n l)
    = Z.of_nat <$> head (unresolved_from n l).
Proof.
  intros Hl n. remember (length l - n)%nat as k eqn:Hk. revert n Hk.
  induction k as [| k IH]; intros n Hk.
  - rewrite drop_ge by lia. rewrite unresolved_from_ge by lia. reflexivity.
  - destruct (lookup_lt_is_Some_2 l n ltac:(lia)) as [a Ha].
    rewrite (drop_S l a n Ha). rewrite unresolved_from_lt by lia.
    unfold is_unresolved. rewrite Ha. cbn [first_without_ip].
    replace (Z.of_nat n + 1) with (Z.of_nat (S n)) by lia.
    rewrite (IH (S n)) by lia.
    assert (Hblank : Lan.ip a <> Some "").
    { rewrite Forall_forall in Hl. apply Hl.
      eapply list_elem_of_lookup_2. exact Ha. }
    destruct (Lan.ip a) as [addr |].
    + rewrite bool_decide_eq_false_2 by discriminate.
      unfold truthy. destruct (String.eqb addr "") eqn:E; [| reflexivity].
      apply String.eqb_eq in E. subst. contradiction.
    + rewrite bool_decide_eq_true_2 by reflexivity. reflexivity.
Qed.

(** X19: on a discovery result whose addresses are each absent or non-blank,
    with N appliances of which K have no address: the form of the
    unreachable-appliance step is entered K times, for the K appliances
    without an address in the order of the list, one per accepted
    submission, and then the reconciler ends the flow; when K is 0 the
    reconciler runs at once and the form is never shown. *)
Theorem unreachable_stage_visits (w : World) (conf : Dict)
    (account password appkey : string) (appid : Z) (cloud : MideaCloud)
    (inputs : list Dict) :
  _conf (self w) = Some conf ->
  CONF_USERNAME conf = Some account -> CONF_PASSWORD conf = Some password ->
  CONF_APPKEY conf = Some appkey -> CONF_APPID conf = Some appid ->
  connect_to_cloud account password appkey appid = Connected cloud ->
  let discovered := find_appliances cloud (networks_of conf) in
  Forall (fun a => Lan.ip a <> Some "") discovered ->
  Forall (accepted (Some cloud)) inputs ->
  length inputs = length (unresolved_from 0 discovered) ->
  exists r results w1 w',
    discover_and_continue w = (inr r, w1) /\
    run_flow r inputs w1 = (inr results, w') /\
    shown_appliances (r :: results)
    = map (id_at discovered) (unresolved_from 0 discovered) /\
    reconciled (last (r :: results)).
Proof.
  intros Hconf Hu Hp Hk Hi Hc discovered Hblank Hacc Hlen.
  unfold discover_and_continue.
  run_ok reflexivity.
  run_ok (apply (connect_and_discover_run _ conf account password appkey appid cloud);
          assumption).
  run_ok reflexivity. run_ok reflexivity.
  cbn [self discovered_world set_cloud set_appliances _appliances _appliance_idx
         set_appliance_idx].
  fold discovered.
  pose proof (first_without_ip_spec discovered Hblank 0) as Hscan.
  rewrite drop_0 in Hscan. change (Z.of_nat 0) with 0 in Hscan. rewrite Hscan.
  destruct (unresolved_from 0 discovered) as [| j us] eqn:Hus.
  - cbn [head fmap option_fmap option_map _appliance_idx set_cloud set_appliances
           set_appliance_idx].
    destruct inputs; [| discriminate].
    change (0 <=? -1) with false. cbv iota.
    match goal with
    | |- context [_async_add_entry ?W] =>
        pose proof (add_entry_run W conf account Hconf Hu) as Hadd
    end.
    cbv zeta in Hadd.
    match type of Hadd with
    | _ = match ?x with _ => _ end => destruct x as [entry |]
    end.
    + do 4 eexists. split; [exact Hadd |]. split; [reflexivity |].
      split; [reflexivity | right; reflexivity].
    + do 4 eexists. split; [exact Hadd |]. split; [reflexivity |].
      split; [reflexivity | left; eexists; reflexivity].
  - destruct (unresolved_from_head _ _ _ _ Hus) as (Hj & _ & Hus').
    destruct (lookup_lt_is_Some_2 discovered j ltac:(lia)) as [aj Haj].
    cbn [head fmap option_fmap option_map _appliance_idx set_cloud set_appliances
           set_appliance_idx].
    replace (0 <=? Z.of_nat j) with true by (symmetry; apply Z.leb_le; lia).
    match goal with
    | |- context [async_step_unreachable_appliance None ?W] =>
        pose proof (step_none_run (raise RecursionError) W j aj eq_refl Haj) as Hform;
        set (w1 := W) in *
    end.
    destruct (run_visits us inputs (with_cause (Some "") w1) j aj conf account
                (mkDict None None None None None None None
                   (Some false) (Some IGNORED_IP_ADDRESS) (Some (Lan.name aj))
                   None None None)
                (mkPlaceholders "" NAME (Some (Lan.id aj)) (Some (Lan.name aj)))
                None eq_refl Haj Hconf Hu (eq_sym Hus') Hacc)
      as (results & w' & Hrun & Hshown & Hlast).
    { simpl. simpl in Hlen. exact Hlen. }
    exists (form_for aj), results, (with_cause (Some "") w1), w'.
    split; [exact Hform |]. split; [exact Hrun |]. split.
    + rewrite shown_appliances_form. cbn [map]. f_equal.
      * unfold id_at. rewrite Haj. reflexivity.
      * exact Hshown.
    + rewrite last_cons_reconciled by exact Hlast. exact Hlast.
Qed.

End VisitProofs.

(** ** The flow on sample inputs *)

Lemma blank_address_is_ignored_witness :
  Lan.ip <$>
    (_appliances
       (self (snd (@async_step_unreachable_appliance
                     (Sample.env [Sample.hall; Sample.cellar; Sample.attic])
                     (Some (with_ignore (Some false)
                              (Sample.appliance_input true (Some "") "Cellar")))
                     (Sample.after_discovery
                        [Sample.hall; Sample.cellar; Sample.attic]))))
     !! 1%nat)
  = Some (Some "0.0.0.0").
Proof.
  apply (@blank_address_is_ignored
           (Sample.env [Sample.hall; Sample.cellar; Sample.attic])
           (Sample.after_discovery [Sample.hall; Sample.cellar; Sample.attic])
           (Sample.appliance_input true (Some "") "Cellar") (Some false) 1%nat);
    vm_compute; reflexivity.
Defined.

Lemma ignore_flag_never_read_witness :
  let E := Sample.env [Sample.hall; Sample.cellar; Sample.attic] in
  let w := Sample.after_discovery [Sample.hall; Sample.cellar; Sample.attic] in
  async_step_unreachable_appliance
    (Some (Sample.appliance_input true (Some "192.168.1.21") "Cellar")) w
  = async_step_unreachable_appliance
      (Some (Sample.appliance_input false (Some "192.168.1.21") "Cellar")) w.
Proof.
  intros E w.
  apply (@ignore_flag_never_read E w
           (Sample.appliance_input true (Some "192.168.1.21") "Cellar")
           (Sample.appliance_input false (Some "192.168.1.21") "Cellar")).
  reflexivity.
Defined.

Lemma validation_failure_redisplays_witness :
  let E := Sample.env [Sample.hall; Sample.cellar; Sample.attic] in
  let w := Sample.after_discovery [Sample.hall; Sample.cellar; Sample.attic] in
  let user_input := Sample.appliance_input false (Some "10.0.0.5") "Cellar" in
  let w' := snd (async_step_unreachable_appliance (Some user_input) w) in
  _appliance_idx (self w') = 1 /\ _cause (self w') = Some "10.0.0.5".
Proof.
  intros E w user_input w'.
  destruct (@validation_failure_redisplays E w user_input 1%nat Sample.cellar
              "Cellar" "not_discovered" (Some "10.0.0.5"))
    as (_ & Hidx & Hcause & _); try (vm_compute; reflexivity).
  split; [exact Hidx | exact Hcause].
Defined.

Lemma devices_are_resolved_appliances_witness :
  let E := Sample.env [] in
  exists devices data,
    CONF_DEVICES data = Some devices /\
    fst (_async_add_entry Sample.reauthenticating) = inr (Abort "reauth_successful") /\
    devices = [Dev.mk "192.168.1.20" "1" "Hall" "0xa1" "t1" "k1"].
Proof.
  intros E.
  destruct (@devices_are_resolved_appliances E Sample.reauthenticating
              (set_CONF_APPID 1017
                 (set_CONF_APPKEY (app_appkey Sample.NETHOME)
                    (Sample.credentials "u1" "p1" "NetHome" false)))
              "u1" eq_refl eq_refl)
    as (devices & data & _ & Hdev & _ & Heq & _).
  exists devices, data. split; [exact Hdev |]. split; [vm_compute; reflexivity |].
  rewrite Heq. vm_compute. reflexivity.
Defined.

Lemma reconciler_updates_or_creates_witness :
  let E := Sample.env [] in
  fst (_async_add_entry Sample.reauthenticating) = inr (Abort "reauth_successful") /\
  length (config_entries (hass (snd (_async_add_entry Sample.reauthenticating)))) = 2%nat /\
  tasks (hass (snd (_async_add_entry Sample.reauthenticating))) = [Reload "entry-2"].
Proof.
  intros E.
  destruct (proj1 (@reconciler_updates_or_creates E Sample.reauthenticating
                     (set_CONF_APPID 1017
                        (set_CONF_APPKEY (app_appkey Sample.NETHOME)
                           (Sample.credentials "u1" "p1" "NetHome" false)))
                     "u1" eq_refl eq_refl))
    as (entry & Hin & Hu & Hr & _ & _ & Hlen & Htasks).
  - exists (mkEntry "entry-2" (Some "u1") empty_dict). split; [| reflexivity].
    apply list_elem_of_In. right. left. reflexivity.
  - split; [exact Hr |]. split; [exact Hlen |].
    vm_compute. reflexivity.
Defined.

Lemma advanced_options_needs_both_witness :
  let E := Sample.env [] in
  let user_input := Sample.advanced_input "u1" "p1" (Some "my-app-key") None in
  fst (async_step_advanced_options (Some user_input) Sample.in_advanced)
  = inr (ShowForm "advanced_options"
           (mkDict (Some "u1") (Some "p1") None None (Some "my-app-key")
              (Some 1017) (Some "") None None None None None None)
           (mkPlaceholders "" "Midea Dehumidifier (LAN)" None None)
           (Some "invalid_appkey")).
Proof.
  intros E user_input.
  destruct (@advanced_options_needs_both E Sample.in_advanced
              (set_CONF_APPID 1017
                 (set_CONF_APPKEY (app_appkey Sample.NETHOME)
                    (Sample.credentials "u1" "p1" "NetHome" true)))
              user_input eq_refl (or_intror eq_refl)) as [Hrun _].
  rewrite Hrun. reflexivity.
Defined.

(** C6, as stated, fails: the app key is absent and the app id submitted
    is 0; the step fails with [invalid_appkey], but the form offers the
    default app id 1017, not the 0 that was submitted. *)
Lemma advanced_options_zero_appid_not_retained :
  let E := Sample.env [] in
  let user_input := Sample.advanced_input "u1" "p1" None (Some 0) in
  CONF_APPKEY user_input = None /\ CONF_APPID user_input = Some 0 /\
  exists schema ph,
    fst (async_step_advanced_options (Some user_input) Sample.in_advanced)
    = inr (ShowForm "advanced_options" schema ph (Some "invalid_appkey")) /\
    CONF_APPID schema = Some 1017 /\
    ~ retained schema user_input.
Proof.
  intros E user_input. split; [reflexivity |]. split; [reflexivity |].
  eexists. eexists. split; [vm_compute; reflexivity |].
  split; [reflexivity |].
  intros (_ & _ & _ & Hid & _). specialize (Hid 0 eq_refl). discriminate.
Qed.

Lemma credential_stage_resolves_app_witness :
  let E := Sample.env [Sample.hall] in
  let w' := snd (_validate_discovery_phase
                   (Some (Sample.credentials "u1" "p1" "NetHome" false))
                   Sample.fresh) in
  session_app w' = Some (Some "3742e9e5842d4ad59c2db887e12449f9", Some 1017) /\
  exists rest,
    trace w' = CallConnect "u1" "p1" "3742e9e5842d4ad59c2db887e12449f9" 1017
               :: CallFind (CloudSession 1) [] :: rest.
Proof.
  intros E w'.
  destruct (@credential_stage_resolves_app E Sample.fresh
              (Sample.credentials "u1" "p1" "NetHome" false) eq_refl)
    as (Htable & _ & _ & Hcalls).
  split.
  - apply (Htable "NetHome" Sample.NETHOME); [reflexivity | discriminate |].
    vm_compute. reflexivity.
  - assert (Htab : SUPPORTED_APPS !! "NetHome" = Some Sample.NETHOME)
      by (vm_compute; reflexivity).
    destruct (Hcalls "u1" "p1" Sample.NETHOME eq_refl eq_refl eq_refl eq_refl
                eq_refl Htab) as (rest & Htrace & Hfind).
    destruct (Hfind (CloudSession 1) eq_refl) as [rest' ->].
    exists rest'. exact Htrace.
Defined.

Lemma unreachable_stage_visits_witness :
  let E := Sample.env [Sample.hall; Sample.cellar; Sample.attic] in
  let inputs := [Sample.appliance_input true None "Cellar";
                 Sample.appliance_input false (Some "") "Attic"] in
  exists r results w1 w',
    discover_and_continue Sample.ready = (inr r, w1) /\
    run_flow r inputs w1 = (inr results, w') /\
    shown_appliances (r :: results) = ["17592186044417"; "3"] /\
    reconciled (last (r :: results)).
Proof.
  intros E inputs.
  apply (@unreachable_stage_visits E Sample.ready
           (set_CONF_APPID 1017
              (set_CONF_APPKEY (app_appkey Sample.NETHOME)
                 (Sample.credentials "u1" "p1" "NetHome" false)))
           "u1" "p1" (app_appkey Sample.NETHOME) 1017 (CloudSession 1) inputs);
    try reflexivity.
  - repeat constructor; discriminate.
  - repeat constructor.
    + exists "Cellar". split; [reflexivity |]. intros a tr.
      eexists. eexists. reflexivity.
    + exists "Attic". split; [reflexivity |]. intros a tr.
      eexists. eexists. reflexivity.
Defined.

(** C1 on a discovery result with a blank address. Discovery returns
    [cellar], whose address is absent, and [blank], whose address is the
    empty string: two appliances without an address. The form is shown for
    [cellar] only; once [cellar] is ignored the flow creates the entry,
    with no device, and [blank] was never shown. When [blank] is the only
    appliance, the form is shown for it. *)
Theorem blank_address_skipped_after_first :
  shown_appliances
    (Sample.results [Sample.cellar; Sample.blank]
       [Sample.credentials "u1" "p1" "NetHome" false;
        Sample.appliance_input true None "Cellar"])
  = ["17592186044417"] /\
  (exists data,
     last (Sample.results [Sample.cellar; Sample.blank]
             [Sample.credentials "u1" "p1" "NetHome" false;
              Sample.appliance_input true None "Cellar"])
     = Some (CreateEntry "Midea Dehumidifiers" data) /\
     CONF_DEVICES data = Some []) /\
  shown_appliances
    (Sample.results [Sample.blank]
       [Sample.credentials "u1" "p1" "NetHome" false])
  = ["4"].
Proof.
  split; [vm_compute; reflexivity |]. split; [| vm_compute; reflexivity].
  eexists. split; [vm_compute; reflexivity | reflexivity].
Qed.

(** * Further properties of the humidifier entity *)

(** Membership in a list of literals, and its negation, by evaluation. *)
Ltac closed_mem :=
  match goal with
  | |- ?P => apply (bool_decide_eq_true_1 P); vm_compute; reflexivity
  end.
Ltac closed_not_mem H :=
  exfalso; revert H;
  match goal with
  | |- ?P -> False => apply (bool_decide_eq_false_1 P); vm_compute; reflexivity
  end.

Section HumidifierMore.
Import Humidifier.

Lemma init_modes_shape (supports : gmap string Z) :
  init_modes supports
  = ([MODE_SET]
     ++ (if getattr supports "auto" 0 =? 0 then [] else [MODE_SMART])
     ++ [MODE_CONTINOUS]
     ++ (if getattr supports "dry_clothes" 0 =? 0 then [] else [MODE_DRY])
     ++ (if bool_decide (supports !! "mode" = Some 1) then [MODE_PURIFIER]
         else if bool_decide (supports !! "mode" = Some 2) then [MODE_ANTIMOULD]
         else if bool_decide (supports !! "mode" = Some 3)
              then [MODE_PURIFIER; MODE_ANTIMOULD]
         else if bool_decide (supports !! "mode" = Some 4) then [MODE_FAN]
         else []))%list.
Proof.
  unfold init_modes.
  destruct (getattr supports "auto" 0 =? 0);
    destruct (getattr supports "dry_clothes" 0 =? 0);
    destruct (supports !! "mode") as [z |]; try reflexivity;
    (destruct z as [| p | p]; try reflexivity;
     do 3 (try destruct p as [p | p |]; try reflexivity)).
Qed.

(** X1: the list of modes built by [__init__] starts with Set, always
    offers Continuous, offers no mode twice, and offers Smart exactly
    when [supports] has a non-zero [auto], Dry exactly when it has a
    non-zero [dry_clothes], Purifier exactly when its [mode] is 1 or 3,
    Antimould exactly when it is 2 or 3 and Fan exactly when it is 4. *)
Theorem init_modes_offered (supports : gmap string Z) :
  head (init_modes supports) = Some MODE_SET /\
  MODE_CONTINOUS ∈ init_modes supports /\
  NoDup (init_modes supports) /\
  (MODE_SMART ∈ init_modes supports <-> getattr supports "auto" 0 <> 0) /\
  (MODE_DRY ∈ init_modes supports <-> getattr supports "dry_clothes" 0 <> 0) /\
  (MODE_PURIFIER ∈ init_modes supports <->
     supports !! "mode" = Some 1 \/ supports !! "mode" = Some 3) /\
  (MODE_ANTIMOULD ∈ init_modes supports <->
     supports !! "mode" = Some 2 \/ supports !! "mode" = Some 3) /\
  (MODE_FAN ∈ init_modes supports <-> supports !! "mode" = Some 4).
Proof.
  rewrite init_modes_shape.
  destruct (getattr supports "auto" 0 =? 0) eqn:Ea;
    [apply Z.eqb_eq in Ea | apply Z.eqb_neq in Ea];
    (destruct (getattr supports "dry_clothes" 0 =? 0) eqn:Ed;
     [apply Z.eqb_eq in Ed | apply Z.eqb_neq in Ed]);
    repeat case_bool_decide;
    (split; [reflexivity |]);
    (split; [closed_mem |]);
    (split; [closed_mem |]);
    repeat split; intros Hx;
      first [ closed_mem
            | closed_not_mem Hx
            | solve [intuition congruence] ].
Qed.

Lemma set_mode_code_unsupported (label : string) :
  label ∉ labels ->
  set_mode_code label
  = (1, [mkLog WARNING "Unsupported dehumidifer mode %s" [ArgStr label]]).
Proof.
  unfold labels. intros Hnot.
  repeat (apply not_elem_of_cons in Hnot; destruct Hnot as [? Hnot]).
  unfold set_mode_code.
  repeat match goal with
         | Hne : label <> _ |- _ => apply String.eqb_neq in Hne; rewrite Hne; clear Hne
         end.
  reflexivity.
Qed.

(** X2: [set_mode] with a label that is not one of the six it knows logs
    a warning and writes mode 1, so that [mode] then reads Set. Fan is
    such a label, although [__init__] offers it when [supports] has
    [mode] 4. *)
Theorem set_mode_unsupported (self : DehumidifierEntity) (label : string) :
  (label ∉ labels ->
   set_mode self label
   = (apply self "mode" 1,
      [mkLog WARNING "Unsupported dehumidifer mode %s" [ArgStr label]]) /\
   mode (fst (set_mode self label)) = (MODE_SET, [])) /\
  (forall supports,
     supports !! "mode" = Some 4 ->
     MODE_FAN ∈ init_modes supports /\
     set_mode self MODE_FAN
     = (apply self "mode" 1,
        [mkLog WARNING "Unsupported dehumidifer mode %s" [ArgStr MODE_FAN]])).
Proof.
  split.
  - intros Hnot. unfold set_mode.
    rewrite (set_mode_code_unsupported label Hnot). split; [reflexivity |].
    cbn [fst]. unfold mode. rewrite getattr_apply. reflexivity.
  - intros supports Hfan. split; [| reflexivity].
    rewrite init_modes_shape, Hfan.
    destruct (getattr supports "auto" 0 =? 0);
      destruct (getattr supports "dry_clothes" 0 =? 0); closed_mem.
Qed.


(** X4: [mode] returns one of the six labels whatever the state holds,
    never Fan; it logs nothing when the state has no mode attribute, and
    nothing after [set_mode], whatever label was set. *)
Theorem mode_always_a_label (self : DehumidifierEntity) (label : string) :
  fst (mode self) ∈ labels /\
  fst (mode self) <> MODE_FAN /\
  (state self !! "mode" = None -> mode self = (MODE_SET, [])) /\
  snd (mode (fst (set_mode self label))) = [].
Proof.
  assert (Hlab : forall e, fst (mode e) ∈ labels).
  { intros e. unfold mode.
    repeat (match goal with
            | |- context [if ?b then _ else _] => destruct b
            end; [cbn [fst]; closed_mem |]).
    cbn [fst]. closed_mem. }
  split; [apply Hlab |]. split.
  - intros Hfan. pose proof (Hlab self) as Hin. rewrite Hfan in Hin.
    closed_not_mem Hin.
  - split.
    + intros Hnone. unfold mode, getattr. rewrite Hnone. reflexivity.
    + unfold set_mode.
      destruct (decide (label ∈ labels)) as [Hin | Hnot].
      * unfold labels in Hin.
        repeat (apply elem_of_cons in Hin; destruct Hin as [-> | Hin]);
          try (match goal with
               | |- context [set_mode_code ?l] =>
                   let v := eval vm_compute in (set_mode_code l) in
                   change (set_mode_code l) with v
               end;
               cbn [fst]; unfold mode; rewrite getattr_apply; reflexivity).
        apply elem_of_nil in Hin. destruct Hin.
      * rewrite (set_mode_code_unsupported label Hnot). cbn [fst].
        unfold mode. rewrite getattr_apply. reflexivity.
Qed.

End HumidifierMore.

Lemma set_mode_unsupported_witness :
  Humidifier.mode
    (fst (Humidifier.set_mode (Humidifier.mkEntity (<["mode" := 3]> ∅) []) "Turbo"))
  = ("Set", []) /\
  "Fan" ∈ Humidifier.init_modes (<["mode" := 4]> ∅).
Proof.
  split.
  - apply (set_mode_unsupported (Humidifier.mkEntity (<["mode" := 3]> ∅) []) "Turbo").
    intros Hin. closed_not_mem Hin.
  - apply (set_mode_unsupported (Humidifier.mkEntity ∅ []) "Fan").
    reflexivity.
Defined.

Lemma mode_always_a_label_witness :
  Humidifier.mode (Humidifier.mkEntity ∅ []) = ("Set", []).
Proof.
  apply (mode_always_a_label (Humidifier.mkEntity ∅ []) "Dry"). reflexivity.
Defined.

(** * Further properties of the config flow *)

(** ** Discovery and the reconciler at their edges *)

Section DiscoveryMore.
Context `{Externals}.

(** X5: when the cloud gives no session, [connect_and_discover] raises
    [no_cloud]; when it refuses the credentials, the authentication error
    goes through. Either way the cloud was called once, the networks were
    not searched, and the appliances and the cloud session of the flow are
    the ones it had. *)
Theorem connect_failure_leaves_session (w : World) (conf : Dict)
    (account password appkey : string) (appid : Z) :
  _conf (self w) = Some conf ->
  CONF_USERNAME conf = Some account -> CONF_PASSWORD conf = Some password ->
  CONF_APPKEY conf = Some appkey -> CONF_APPID conf = Some appid ->
  let called :=
    mkWorld (self w) (hass w)
      (trace w ++ [CallConnect account password appkey appid])%list in
  (connect_to_cloud account password appkey appid = NoCloud ->
   connect_and_discover w = (inl (FlowException "no_cloud" None), called)) /\
  (forall error_code message,
     connect_to_cloud account password appkey appid
     = AuthFailed error_code message ->
     connect_and_discover w
     = (inl (CloudAuthenticationError error_code message), called)).
Proof.
  intros Hconf Hu Hp Hk Hi called.
  unfold connect_and_discover.
  run_ok (unfold conf_get; run_ok reflexivity; rewrite Hconf; reflexivity).
  rewrite Hu, Hp, Hk, Hi.
  do 4 run_ok reflexivity. run_ok reflexivity.
  split.
  - intros Hc. rewrite Hc. reflexivity.
  - intros code m Hc. rewrite Hc. reflexivity.
Qed.

(** X6: a configuration that lacks the username, the password, the app
    key or the app id makes [connect_and_discover] raise [KeyError] for
    the first of them that is missing, before anything is sent to the
    cloud and with the flow unchanged. *)
Theorem connect_missing_key (w : World) (conf : Dict) :
  _conf (self w) = Some conf ->
  (CONF_USERNAME conf = None ->
   connect_and_discover w = (inl (KeyError "username"), w)) /\
  (is_Some (CONF_USERNAME conf) -> CONF_PASSWORD conf = None ->
   connect_and_discover w = (inl (KeyError "password"), w)) /\
  (is_Some (CONF_USERNAME conf) -> is_Some (CONF_PASSWORD conf) ->
   CONF_APPKEY conf = None ->
   connect_and_discover w = (inl (KeyError "appkey"), w)) /\
  (is_Some (CONF_USERNAME conf) -> is_Some (CONF_PASSWORD conf) ->
   is_Some (CONF_APPKEY conf) -> CONF_APPID conf = None ->
   connect_and_discover w = (inl (KeyError "appid"), w)).
Proof.
  intros Hconf.
  assert (Hget : conf_get w = (inr conf, w)).
  { unfold conf_get. run_ok reflexivity. rewrite Hconf. reflexivity. }
  unfold connect_and_discover. repeat split.
  - intros Hu. run_ok (exact Hget). rewrite Hu. run_exn reflexivity. reflexivity.
  - intros [u Hu] Hp. run_ok (exact Hget). rewrite Hu, Hp.
    run_ok reflexivity. run_exn reflexivity. reflexivity.
  - intros [u Hu] [p Hp] Hk. run_ok (exact Hget). rewrite Hu, Hp, Hk.
    do 2 run_ok reflexivity. run_exn reflexivity. reflexivity.
  - intros [u Hu] [p Hp] [k Hk] Hi. run_ok (exact Hget). rewrite Hu, Hp, Hk, Hi.
    do 3 run_ok reflexivity. run_exn reflexivity. reflexivity.
Qed.

(** X7: the scan of [_validate_discovery_phase] finds nothing exactly
    when every appliance has a non-blank address; what it finds is the
    position of the first appliance whose address is absent or blank. *)
Theorem first_without_ip_first (l : list LanDevice) (n : Z) :
  (first_without_ip n l = None <->
   Forall (fun a => truthy (Lan.ip a) = true) l) /\
  (forall z, first_without_ip n l = Some z ->
     exists k a, z = n + Z.of_nat k /\ l !! k = Some a /\
       truthy (Lan.ip a) = false /\
       forall j b, (j < k)%nat -> l !! j = Some b -> truthy (Lan.ip b) = true).
Proof.
  revert n. induction l as [| a l IH]; intros n.
  - split; [split; [constructor | reflexivity] | discriminate].
  - cbn [first_without_ip]. destruct (truthy (Lan.ip a)) eqn:Ea; cbn [negb].
    + destruct (IH (n + 1)) as [Hnone Hsome]. split.
      * rewrite Hnone. split.
        -- intros Hl. constructor; assumption.
        -- intros Hl. apply Forall_cons in Hl. tauto.
      * intros z Hz. destruct (Hsome z Hz) as (k & b & -> & Hk & Hb & Hbefore).
        exists (S k), b. repeat split; try assumption; try lia.
        intros [| j] c Hj Hc.
        -- inversion Hc; subst. exact Ea.
        -- apply (Hbefore j c); [lia | exact Hc].
    + split.
      * split; [discriminate |].
        intros Hl. apply Forall_cons in Hl. destruct Hl as [Ht _]. congruence.
      * intros z Hz. inversion Hz; subst. exists 0%nat, a.
        repeat split; try lia. exact Ea.
Qed.

(** X8: without a configuration the reconciler logs an error and raises
    [unexpected_state], touching nothing else; with a configuration that
    has no username it raises [KeyError] once the device list is rebuilt,
    and neither the configuration nor the host's entries and tasks have
    changed. *)
Theorem add_entry_errors (w : World) :
  (_conf (self w) = None ->
   _async_add_entry w
   = (inl (FlowException "unexpected_state" None),
      mkWorld (self w) (hass w)
        (trace w ++ [Logged (mkLog ERROR
           "Configuration should have been set before reaching this!" [])])%list)) /\
  (forall conf, _conf (self w) = Some conf -> CONF_USERNAME conf = None ->
     _async_add_entry w
     = (inl (KeyError "username"),
        mkWorld (set_appliance_conf (omap configured (_appliances (self w))) (self w))
          (hass w) (trace w))).
Proof.
  split.
  - intros Hnone. unfold _async_add_entry. run_ok reflexivity. rewrite Hnone.
    run_ok reflexivity. reflexivity.
  - intros conf Hconf Hu. unfold _async_add_entry.
    run_ok reflexivity. rewrite Hconf.
    run_ok reflexivity. run_ok reflexivity.
    cbn [self hass trace _appliances _appliance_conf set_appliance_conf].
    rewrite fold_append_appliance_conf. rewrite app_nil_l.
    run_ok (unfold conf_get; run_ok reflexivity;
            cbn [self _conf set_appliance_conf]; rewrite Hconf; reflexivity).
    rewrite Hu. run_exn reflexivity.
    destruct w as [[] ? ?]; reflexivity.
Qed.

End DiscoveryMore.

Section ReconcilerMore.
Context `{Externals}.

Lemma entry_with_unique_id_overwritten (uid : string) (entry : ConfigEntry)
    (data : Dict) (entries : list ConfigEntry) :
  entry_with_unique_id uid (overwritten entry data entries)
  = (fun e => if String.eqb (entry_id e) (entry_id entry)
               then mkEntry (entry_id e) (unique_id e) data else e)
      <$> entry_with_unique_id uid entries.
Proof.
  unfold entry_with_unique_id, overwritten.
  induction entries as [| e entries IH]; [reflexivity |].
  cbn [map List.find].
  destruct (String.eqb (entry_id e) (entry_id entry)) eqn:Ee; cbn [unique_id];
    destruct (bool_decide (unique_id e = Some uid)) eqn:Eu.
  - cbn. rewrite Ee. reflexivity.
  - exact IH.
  - cbn. rewrite Ee. reflexivity.
  - exact IH.
Qed.

Lemma omap_configured_sublist (apps : list LanDevice) :
  sublist (Dev.id <$> omap configured apps) (Lan.id <$> apps).
Proof.
  induction apps as [| a apps IH]; [constructor |].
  cbn [omap list_omap fmap list_fmap].
  destruct (configured a) as [d |] eqn:Ed.
  - apply configured_spec in Ed. destruct Ed as (addr & _ & _ & _ & ->).
    cbn. apply sublist_skip. exact IH.
  - cbn. apply sublist_cons. exact IH.
Qed.

(** X9: running the reconciler a second time ends the flow the same way,
    with the same configuration; when it created the entry the second run
    changes nothing at all. *)
Theorem reconciler_idempotent (w : World) (conf : Dict) (username : string) :
  _conf (self w) = Some conf ->
  CONF_USERNAME conf = Some username ->
  let r := fst (_async_add_entry w) in
  let w' := snd (_async_add_entry w) in
  fst (_async_add_entry w') = r /\
  _conf (self (snd (_async_add_entry w'))) = _conf (self w') /\
  (entry_with_unique_id username (config_entries (hass w)) = None ->
   _async_add_entry w' = (r, w')).
Proof.
  intros Hconf Huser r w'. subst r w'.
  rewrite (add_entry_run w conf username Hconf Huser).
  set (devices := omap configured (_appliances (self w))).
  set (data := set_CONF_DEVICES devices conf).
  destruct (entry_with_unique_id username (config_entries (hass w)))
    as [entry |] eqn:Hfind; cbn [fst snd].
  - match goal with
    | |- context [_async_add_entry ?W] =>
        rewrite (add_entry_run W data username eq_refl Huser)
    end.
    cbn [self hass config_entries set_conf set_context_unique_id
           set_appliance_conf _appliances].
    rewrite entry_with_unique_id_overwritten, Hfind. cbn.
    repeat split. discriminate.
  - match goal with
    | |- context [_async_add_entry ?W] =>
        rewrite (add_entry_run W data username eq_refl Huser)
    end.
    cbn [self hass config_entries set_conf set_context_unique_id
           set_appliance_conf _appliances].
    rewrite Hfind. cbn. repeat split.
Qed.

(** X10: the devices the reconciler writes keep the order of the
    appliances and are no more than them; none has a blank or the ignored
    address; and the configuration is changed in its device list only. *)
Theorem devices_keep_order (w : World) (conf : Dict) (username : string) :
  _conf (self w) = Some conf ->
  CONF_USERNAME conf = Some username ->
  exists devices,
    _conf (self (snd (_async_add_entry w))) = Some (set_CONF_DEVICES devices conf) /\
    sublist (Dev.id <$> devices) (Lan.id <$> _appliances (self w)) /\
    (length devices <= length (_appliances (self w)))%nat /\
    Forall (fun d => Dev.ip_address d <> "" /\
                     Dev.ip_address d <> IGNORED_IP_ADDRESS) devices.
Proof.
  intros Hconf Huser.
  rewrite (add_entry_run w conf username Hconf Huser).
  exists (omap configured (_appliances (self w))).
  split; [destruct (entry_with_unique_id _ _); reflexivity |].
  split; [apply omap_configured_sublist |].
  split.
  - pose proof (sublist_length _ _ (omap_configured_sublist (_appliances (self w))))
      as Hlen.
    rewrite !length_fmap in Hlen. exact Hlen.
  - apply Forall_forall. intros d Hd. apply list_elem_of_omap in Hd.
    destruct Hd as (a & _ & Hc). apply configured_spec in Hc.
    destruct Hc as (addr & _ & Hb & Hi & ->). split; assumption.
Qed.

End ReconcilerMore.

(** ** The credential step at its edges *)

Section UserMore.
Context `{Externals}.

Lemma or_str_blank_default (v : string) : or_str (Some v) "" = v.
Proof.
  unfold or_str. destruct (String.eqb v "") eqn:E; [| reflexivity].
  apply String.eqb_eq in E. subst. reflexivity.
Qed.

Lemma bind_returned {A} (m : M A) (d : M A) (w : World) :
  bind (let* r := m in ret (Some r))
    (fun returned => match returned with Some r => ret r | None => d end) w
  = m w.
Proof. unfold bind, ret. destruct (m w) as [[e | a] w']; reflexivity. Qed.

(** The credential branch of [_validate_discovery_phase]: the submission
    becomes the configuration, with the resolved app key and app id; then
    the advanced form is shown or discovery runs. *)
Lemma credential_run (w : World) (user_input : Dict) (appkey : string)
    (appid : Z) (advanced : bool) :
  _advanced_options (self w) = false ->
  resolved user_input appkey appid ->
  CONF_ADVANCED_OPTIONS user_input = Some advanced ->
  _validate_discovery_phase (Some user_input) w
  = (if advanced
     then async_step_advanced_options_ (fun _ => raise RecursionError) None
     else discover_and_continue)
      (with_conf (set_CONF_APPID appid (set_CONF_APPKEY appkey user_input)) w).
Proof.
  intros Hadv Hres Hflag.
  unfold _validate_discovery_phase, _validate_discovery_phase_.
  run_ok reflexivity. rewrite Hadv.
  rewrite bind_assoc. run_ok reflexivity.
  rewrite bind_assoc.
  destruct Hres as [(Hblank & -> & ->) | (app & entry & Happ & Hne & Htable & -> & ->)].
  - rewrite Hblank. rewrite bind_assoc. run_ok reflexivity. run_ok reflexivity.
    rewrite Hflag. rewrite bind_assoc. run_ok reflexivity.
    destruct advanced.
    + rewrite bind_returned. reflexivity.
    + run_ok reflexivity. reflexivity.
  - rewrite Happ, (truthy_nonblank app Hne).
    rewrite bind_assoc. run_ok reflexivity. rewrite Htable.
    rewrite bind_assoc. run_ok reflexivity. run_ok reflexivity.
    rewrite Hflag. rewrite bind_assoc. run_ok reflexivity.
    destruct advanced.
    + rewrite bind_returned. reflexivity.
    + run_ok reflexivity. reflexivity.
Qed.

(** X11: when the integration already has an entry, the credential step
    aborts with [single_instance_allowed] whatever is submitted; it only
    turns the advanced flag off: nothing is sent to the cloud and the
    configuration, the appliances and the host are as they were. *)
Theorem user_step_single_instance (w : World) (user_input : option Dict) :
  config_entries (hass w) <> [] ->
  async_step_user user_input w
  = (inr (Abort "single_instance_allowed"),
     mkWorld (set_advanced_options false (self w)) (hass w) (trace w)).
Proof.
  intros Hentries. unfold async_step_user.
  run_ok reflexivity. run_ok reflexivity.
  cbn [hass]. destruct (config_entries (hass w)); [contradiction | reflexivity].
Qed.

(** X12: when the cloud refuses the credentials, the credential step
    shows its form again with the error [invalid_auth] and the cause made
    of the error code and the message; when the cloud gives no session the
    error is [no_cloud]. The form offers the submitted values that are not
    blank, the cloud was called once, and the appliances and the cloud
    session of the flow are the ones it had. *)
Theorem user_step_cloud_refusal (w : World) (user_input : Dict)
    (account password appkey : string) (appid : Z) :
  config_entries (hass w) = [] ->
  CONF_USERNAME user_input = Some account ->
  CONF_PASSWORD user_input = Some password ->
  resolved user_input appkey appid ->
  CONF_ADVANCED_OPTIONS user_input = Some false ->
  let r := fst (async_step_user (Some user_input) w) in
  let w' := snd (async_step_user (Some user_input) w) in
  ((forall error_code message,
      connect_to_cloud account password appkey appid
      = AuthFailed error_code message ->
      r = inr (ShowForm "user" (user_schema user_input)
                 (mkPlaceholders (error_code ++ " - " ++ message)%string
                    NAME None None)
                 (Some "invalid_auth"))) /\
   (connect_to_cloud account password appkey appid = NoCloud ->
    r = inr (ShowForm "user" (user_schema user_input)
               (mkPlaceholders "" NAME None None) (Some "no_cloud")))) /\
  ((forall cloud, connect_to_cloud account password appkey appid
                  <> Connected cloud) ->
   _appliances (self w') = _appliances (self w) /\
   _cloud (self w') = _cloud (self w) /\
   trace w' = (trace w ++ [CallConnect account password appkey appid])%list).
Proof.
  intros Hentries Hu Hp Hres Hflag r w'. subst r w'.
  set (conf := set_CONF_APPID appid (set_CONF_APPKEY appkey user_input)).
  set (w0 := mkWorld (set_cause (Some "") (set_advanced_options false (self w)))
               (hass w) (trace w)).
  set (called := mkWorld (self (with_idx (-1) (with_conf conf w0))) (hass w)
                   (trace w ++ [CallConnect account password appkey appid])%list).
  assert (Hphase : forall e,
            connect_and_discover (with_idx (-1) (with_conf conf w0)) = (inl e, called) ->
            _validate_discovery_phase (Some user_input) w0 = (inl e, called)).
  { intros e He.
    rewrite (credential_run w0 user_input appkey appid false eq_refl Hres Hflag).
    unfold discover_and_continue. run_ok reflexivity.
    run_exn (exact He). reflexivity. }
  assert (Hcall : connect_and_discover (with_idx (-1) (with_conf conf w0))
                  = match connect_to_cloud account password appkey appid with
                    | Connected cloud =>
                        connect_and_discover (with_idx (-1) (with_conf conf w0))
                    | NoCloud => (inl (FlowException "no_cloud" None), called)
                    | AuthFailed error_code message =>
                        (inl (CloudAuthenticationError error_code message), called)
                    end).
  { destruct (connect_to_cloud account password appkey appid) eqn:Hc;
      [reflexivity | |];
      unfold connect_and_discover;
      (run_ok (unfold conf_get; run_ok reflexivity; reflexivity));
      cbn [CONF_USERNAME CONF_PASSWORD CONF_APPKEY CONF_APPID conf
             set_CONF_APPID set_CONF_APPKEY];
      rewrite Hu, Hp; do 4 run_ok reflexivity; run_ok reflexivity;
      rewrite Hc; reflexivity. }
  assert (Hstep : async_step_user (Some user_input) w
                  = try_except (_validate_discovery_phase (Some user_input))
                      (fun e =>
                         match e with
                         | FlowException message cause =>
                             Some (self_modify (set_cause cause) ;;;
                                   let* ph := placeholders None in
                                   ret (ShowForm "user" (user_schema user_input) ph
                                          (Some message)))
                         | CloudAuthenticationError error_code message =>
                             Some (self_modify
                                     (set_cause
                                        (Some (error_code ++ " - " ++ message)%string)) ;;;
                                   let* ph := placeholders None in
                                   ret (ShowForm "user" (user_schema user_input) ph
                                          (Some "invalid_auth")))
                         | _ => None
                         end) w0).
  { unfold async_step_user. run_ok reflexivity. run_ok reflexivity.
    cbn [hass]. rewrite Hentries. run_ok reflexivity. reflexivity. }
  rewrite Hstep. clear Hstep.
  destruct (connect_to_cloud account password appkey appid)
    as [cloud | | code m] eqn:Hc.
  - split; [split; [intros ? ? ?; discriminate | discriminate] |].
    intros Hnever. destruct (Hnever cloud eq_refl).
  - erewrite try_except_handled; [| apply Hphase; exact Hcall | reflexivity].
    split; [split; [intros ? ? ?; discriminate | intros _; reflexivity] |].
    intros _. repeat split.
  - erewrite try_except_handled;
      [| apply Hphase; exact Hcall | reflexivity].
    split; [split; [| discriminate] |].
    + intros code' m' Heq. inversion Heq; subst.
      run_ok reflexivity.
      run_ok (unfold placeholders; run_ok reflexivity; reflexivity).
      unfold ret. cbn [fst self _cause set_cause].
      rewrite or_str_blank_default. reflexivity.
    + intros _. repeat split.
Qed.

(** X13: with the advanced toggle on, the credential step stores the
    submission as the configuration, with the app key and app id it
    resolved, and shows the advanced form without calling the cloud. The
    form offers the default app key and app id, whatever was resolved. *)
Theorem user_step_opens_advanced (w : World) (user_input : Dict)
    (appkey : string) (appid : Z) :
  config_entries (hass w) = [] ->
  resolved user_input appkey appid ->
  CONF_ADVANCED_OPTIONS user_input = Some true ->
  async_step_user (Some user_input) w
  = (inr (ShowForm "advanced_options"
            (mkDict
               (Some (or_str (CONF_USERNAME user_input) DEFAULT_USERNAME))
               (Some (or_str (CONF_PASSWORD user_input) DEFAULT_PASSWORD))
               None None (Some DEFAULT_APPKEY) (Some DEFAULT_APP_ID) (Some "")
               None None None None None None)
            (mkPlaceholders "" NAME None None) None),
     mkWorld
       (set_advanced_options true
          (set_conf (Some (set_CONF_APPID appid (set_CONF_APPKEY appkey user_input)))
             (set_cause (Some "") (self w))))
       (hass w) (trace w)).
Proof.
  intros Hentries Hres Hflag.
  set (w0 := mkWorld (set_cause (Some "") (set_advanced_options false (self w)))
               (hass w) (trace w)).
  unfold async_step_user. run_ok reflexivity. run_ok reflexivity.
  cbn [hass]. rewrite Hentries. run_ok reflexivity.
  fold w0.
  erewrite try_except_ok; [reflexivity |].
  match goal with
  | |- _ = ?rhs => change (_validate_discovery_phase (Some user_input) w0 = rhs)
  end.
  rewrite (credential_run w0 user_input appkey appid true eq_refl Hres Hflag).
  unfold async_step_advanced_options_.
  run_ok reflexivity. run_ok reflexivity. run_ok reflexivity.
  run_ok reflexivity.
  unfold ret. subst w0. destruct w as [[] ? ?]. reflexivity.
Qed.

End UserMore.

(** ** The advanced-options step at its edges *)

Section AdvancedMore.
Context `{Externals}.

(** The advanced branch of [_validate_discovery_phase] on a submission
    with an app key and an app id: both are written to the configuration,
    then the network range, if one was submitted, is checked. *)
Lemma advanced_run (w : World) (conf user_input : Dict) (appkey : string)
    (appid : Z) :
  _advanced_options (self w) = true ->
  _conf (self w) = Some conf ->
  CONF_APPKEY user_input = Some appkey ->
  CONF_APPID user_input = Some appid ->
  _validate_discovery_phase (Some user_input) w
  = let conf' := set_CONF_APPID appid (set_CONF_APPKEY appkey conf) in
    match CONF_NETWORK_RANGE user_input with
    | Some network_range =>
        if String.eqb network_range "" then discover_and_continue (with_conf conf' w)
        else if IPv4Network network_range
        then discover_and_continue
               (with_conf (set_CONF_NETWORK_RANGE network_range conf') w)
        else (inl (FlowException "invalid_ip_range" (Some network_range)),
              with_conf conf' w)
    | None => discover_and_continue (with_conf conf' w)
    end.
Proof.
  destruct w as [[c i a ac cf adv cause uid] hs tr]. cbn [self _advanced_options _conf].
  intros -> -> Hk Hi.
  unfold _validate_discovery_phase, _validate_discovery_phase_.
  run_ok reflexivity. cbn [self _advanced_options _conf]. rewrite Hk, Hi.
  rewrite !bool_decide_eq_true_2 by eauto. cbn [negb orb].
  rewrite !bind_assoc. run_ok reflexivity.
  rewrite !bind_assoc. run_ok reflexivity.
  rewrite !bind_assoc. run_ok reflexivity.
  rewrite !bind_assoc. run_ok reflexivity.
  destruct (CONF_NETWORK_RANGE user_input) as [network_range |].
  - destruct (String.eqb network_range ""); [run_ok reflexivity; reflexivity |].
    destruct (IPv4Network network_range).
    + rewrite !bind_assoc. run_ok reflexivity. run_ok reflexivity. reflexivity.
    + run_exn reflexivity. reflexivity.
  - run_ok reflexivity. reflexivity.
Qed.

Lemma try_except_stable {A} (R : relation World) `{!PreOrder R} (m : M A) h
    (w0 w : World) :
  R w0 (snd (m w)) ->
  (forall e k, h e = Some k -> stable R k) ->
  R w0 (snd (try_except m h w)).
Proof.
  intros Hm Hh. unfold try_except.
  destruct (m w) as [[e | a] w1]; cbn [snd] in *; [| exact Hm].
  destruct (h e) as [k |] eqn:He; [| exact Hm].
  etransitivity; [exact Hm | apply (Hh e k He)].
Qed.

(** X14: a submission to the advanced-options step whose network range is
    not blank and is not a network fails with [invalid_ip_range] and the
    range as cause; nothing is sent to the cloud, but the app key and the
    app id of the submission are in the configuration by then. *)
Theorem advanced_invalid_range (w : World) (conf user_input : Dict)
    (appkey : string) (appid : Z) (network_range : string) :
  _conf (self w) = Some conf ->
  CONF_APPKEY user_input = Some appkey ->
  CONF_APPID user_input = Some appid ->
  CONF_NETWORK_RANGE user_input = Some network_range ->
  network_range <> "" ->
  IPv4Network network_range = false ->
  async_step_advanced_options (Some user_input) w
  = (inr (ShowForm "advanced_options" (advanced_schema conf user_input)
            (mkPlaceholders network_range NAME None None)
            (Some "invalid_ip_range")),
     mkWorld
       (set_cause (Some network_range)
          (set_conf (Some (set_CONF_APPID appid (set_CONF_APPKEY appkey conf)))
             (set_advanced_options true (self w))))
       (hass w) (trace w)).
Proof.
  intros Hconf Hk Hi Hr Hne Hbad.
  unfold async_step_advanced_options, async_step_advanced_options_.
  run_ok reflexivity. run_ok reflexivity.
  run_ok (unfold conf_get; run_ok reflexivity; cbn; rewrite Hconf; reflexivity).
  erewrite try_except_handled;
    [| match goal with
       | |- _validate_discovery_phase _ ?W = _ =>
           rewrite (advanced_run W conf user_input appkey appid eq_refl Hconf Hk Hi)
       end;
       cbv zeta; rewrite Hr; apply String.eqb_neq in Hne; rewrite Hne, Hbad;
       reflexivity
     | reflexivity].
  run_ok reflexivity.
  run_ok (unfold placeholders; run_ok reflexivity; reflexivity).
  unfold ret, advanced_schema. cbn [fst self _cause set_cause].
  rewrite or_str_blank_default.
  destruct w as [[] ? ?]; reflexivity.
Qed.

Lemma advanced_reads (w : World) (u1 u2 : Dict) :
  _advanced_options (self w) = true ->
  CONF_APPKEY u1 = CONF_APPKEY u2 ->
  CONF_APPID u1 = CONF_APPID u2 ->
  CONF_NETWORK_RANGE u1 = CONF_NETWORK_RANGE u2 ->
  _validate_discovery_phase (Some u1) w = _validate_discovery_phase (Some u2) w.
Proof.
  intros Hadv Hk Hi Hr.
  unfold _validate_discovery_phase, _validate_discovery_phase_.
  do 2 (erewrite (bind_ok self_get _ w w (self w)) by reflexivity).
  cbv beta. rewrite Hadv, Hk, Hi, Hr. reflexivity.
Qed.

(** X15: the username and the password of a submission to the
    advanced-options step are used for nothing but the form: two
    submissions with the same app key, app id and network range leave the
    same state, cloud calls included, and give the same result, unless the
    advanced form is shown again, and then with the same error and
    placeholders. *)
Theorem advanced_account_not_read (w : World) (u1 u2 : Dict) :
  CONF_APPKEY u1 = CONF_APPKEY u2 ->
  CONF_APPID u1 = CONF_APPID u2 ->
  CONF_NETWORK_RANGE u1 = CONF_NETWORK_RANGE u2 ->
  let a1 := async_step_advanced_options (Some u1) w in
  let a2 := async_step_advanced_options (Some u2) w in
  snd a1 = snd a2 /\
  (fst a1 = fst a2 \/
   exists schema1 schema2 ph errors,
     fst a1 = inr (ShowForm "advanced_options" schema1 ph errors) /\
     fst a2 = inr (ShowForm "advanced_options" schema2 ph errors)).
Proof.
  intros Hk Hi Hr a1 a2. subst a1 a2.
  unfold async_step_advanced_options, async_step_advanced_options_.
  destruct (_conf (self w)) as [conf |] eqn:Hconf.
  - do 6 first
      [ run_ok reflexivity
      | run_ok (unfold conf_get; run_ok reflexivity; cbn; rewrite Hconf; reflexivity) ].
    unfold try_except.
    match goal with
    | |- context [_validate_discovery_phase (Some u1) ?W] =>
        rewrite (advanced_reads W u1 u2 eq_refl Hk Hi Hr)
    end.
    match goal with
    | |- context [_validate_discovery_phase (Some u2) ?W] =>
        destruct (_validate_discovery_phase (Some u2) W) as [[e | r] w2]
    end.
    + destruct e;
        cbv beta iota zeta delta
          [bind self_modify modify placeholders self_get ret fst snd];
        (split; [reflexivity |]);
        first [ left; reflexivity
              | right; do 4 eexists; split; reflexivity ].
    + split; [reflexivity | left; reflexivity].
  - do 6 first
      [ run_ok reflexivity
      | run_exn (unfold conf_get; run_ok reflexivity; cbn; rewrite Hconf; reflexivity) ].
    split; [reflexivity | left; reflexivity].
Qed.

Lemma discover_tail_extends_trace (w0 w : World) :
  trace_grows w0 w ->
  trace_grows w0
    (snd (bind
            (self_modify (fun fl =>
               match first_without_ip 0 (_appliances fl) with
               | Some i => set_appliance_idx i fl
               | None => fl
               end))
            (fun _ =>
               let* fl := self_get in
               if 0 <=? _appliance_idx fl then async_step_unreachable_appliance None
               else _async_add_entry) w)).
Proof.
  intros Hw. etransitivity; [exact Hw |].
  revert w Hw. intros w _.
  match goal with
  | |- trace_grows w (snd (?m w)) => cut (extends_trace m); [intros Hs; apply Hs |]
  end.
  extending;
    first [ apply step_none_extends_trace | apply add_entry_extends_trace ].
Qed.

Lemma discover_tail_keeps_session (w0 w : World) :
  same (fun w => (_appliances (self w), _cloud (self w))) w0 w ->
  same (fun w => (_appliances (self w), _cloud (self w))) w0
    (snd (bind
            (self_modify (fun fl =>
               match first_without_ip 0 (_appliances fl) with
               | Some i => set_appliance_idx i fl
               | None => fl
               end))
            (fun _ =>
               let* fl := self_get in
               if 0 <=? _appliance_idx fl then async_step_unreachable_appliance None
               else _async_add_entry) w)).
Proof.
  intros Hw. etransitivity; [exact Hw |].
  match goal with
  | |- same ?p w (snd (?m w)) => cut (preserves p m); [intros Hs; apply Hs |]
  end.
  unfold async_step_unreachable_appliance, async_step_unreachable_appliance_,
    unreachable_appliance_form, appliances_getitem, appliance_at, placeholders,
    _async_add_entry, async_set_unique_id, async_update_entry, async_create_task.
  preserving.
Qed.

(** X16: a submission to the advanced-options step with a network range
    that is a network connects with the username and the password of the
    session and the app key and the app id of the submission, and
    discovery then searches that network and no other; the flow holds the
    cloud session and the appliances that were found. *)
Theorem advanced_range_searched (w : World) (conf user_input : Dict)
    (account password appkey : string) (appid : Z) (network_range : string)
    (cloud : MideaCloud) :
  _conf (self w) = Some conf ->
  CONF_USERNAME conf = Some account -> CONF_PASSWORD conf = Some password ->
  CONF_APPKEY user_input = Some appkey ->
  CONF_APPID user_input = Some appid ->
  CONF_NETWORK_RANGE user_input = Some network_range ->
  network_range <> "" ->
  IPv4Network network_range = true ->
  connect_to_cloud account password appkey appid = Connected cloud ->
  let w' := snd (async_step_advanced_options (Some user_input) w) in
  (exists rest,
     trace w'
     = (trace w ++ CallConnect account password appkey appid
                :: CallFind cloud [network_range] :: rest)%list) /\
  _appliances (self w') = find_appliances cloud [network_range] /\
  _cloud (self w') = Some cloud.
Proof.
  intros Hconf Hu Hp Hk Hi Hr Hne Hnet Hc w'. subst w'.
  set (conf' := set_CONF_NETWORK_RANGE network_range
                  (set_CONF_APPID appid (set_CONF_APPKEY appkey conf))).
  unfold async_step_advanced_options, async_step_advanced_options_.
  run_ok reflexivity. run_ok reflexivity.
  run_ok (unfold conf_get; run_ok reflexivity; cbn; rewrite Hconf; reflexivity).
  match goal with
  | |- context [try_except _ ?h ?W] => set (handler := h); set (w1 := W)
  end.
  set (wd := discovered_world account password appkey appid cloud conf'
               (with_idx (-1) (with_conf conf' w1))).
  assert (Hnets : networks_of conf' = [network_range]).
  { unfold networks_of, conf'. cbn. apply String.eqb_neq in Hne.
    rewrite Hne. reflexivity. }
  assert (Hphase :
            _validate_discovery_phase (Some user_input) w1
            = bind
                (self_modify (fun fl =>
                   match first_without_ip 0 (_appliances fl) with
                   | Some i => set_appliance_idx i fl
                   | None => fl
                   end))
                (fun _ =>
                   let* fl := self_get in
                   if 0 <=? _appliance_idx fl then async_step_unreachable_appliance None
                   else _async_add_entry) wd).
  { rewrite (advanced_run w1 conf user_input appkey appid eq_refl Hconf Hk Hi).
    cbv zeta. rewrite Hr. pose proof Hne as Hne'.
    apply String.eqb_neq in Hne'. rewrite Hne', Hnet. fold conf'.
    unfold discover_and_continue. run_ok reflexivity.
    run_ok (apply (connect_and_discover_run _ conf' account password appkey appid cloud);
            first [reflexivity | assumption]).
    reflexivity. }
  assert (Hgrows : trace_grows wd
                     (snd (try_except (_validate_discovery_phase (Some user_input))
                             handler w1))).
  { apply try_except_stable; [typeclasses eauto | |].
    - rewrite Hphase. apply discover_tail_extends_trace. reflexivity.
    - subst handler. unfold placeholders.
      intros [] ? ?; simplify_eq/=; extending. }
  assert (Hsame : same (fun w => (_appliances (self w), _cloud (self w))) wd
                    (snd (try_except (_validate_discovery_phase (Some user_input))
                            handler w1))).
  { apply try_except_stable; [typeclasses eauto | |].
    - rewrite Hphase. apply discover_tail_keeps_session. reflexivity.
    - subst handler. unfold placeholders.
      intros [] ? ?; simplify_eq/=; preserving. }
  split; [| split].
  - destruct Hgrows as [more Hmore]. exists more.
    etransitivity; [exact Hmore |].
    subst wd. unfold discovered_world. cbn [trace]. rewrite Hnets.
    rewrite <- app_assoc. reflexivity.
  - unfold same in Hsame. apply (f_equal fst) in Hsame. cbn [fst] in Hsame.
    etransitivity; [exact Hsame |].
    subst wd. unfold discovered_world.
    cbn [self _appliances set_cloud set_appliances]. rewrite Hnets. reflexivity.
  - unfold same in Hsame. apply (f_equal snd) in Hsame. cbn [snd] in Hsame.
    etransitivity; [exact Hsame |]. reflexivity.
Qed.

End AdvancedMore.

(** ** What the unreachable-appliance step leaves alone *)

Section StepFrame.
Context `{Externals}.

#[local] Instance step_frame_preorder (i : nat) : PreOrder (step_frame i).
Proof.
  split.
  - intros w. unfold step_frame, differ_at, cursor_forward. repeat split. lia.
  - intros w1 w2 w3 ((Hl1 & Hd1) & Hc1 & Hs1) ((Hl2 & Hd2) & Hc2 & Hs2).
    unfold step_frame, differ_at, cursor_forward in *. repeat split.
    + congruence.
    + intros j Hj. rewrite (Hd2 j Hj). apply Hd1. exact Hj.
    + lia.
    + congruence.
Qed.

Ltac frame_side :=
  intros [[? ? ? ? [] ? ? ?] ? ?];
  unfold step_frame, differ_at, cursor_forward; simpl;
  repeat case_match; simpl;
  repeat split;
  first [ reflexivity | lia | apply length_alter
        | intros; apply list_lookup_alter_ne; congruence ].

Ltac framing := repeat stable_step ltac:(idtac; frame_side).

Lemma frame_run_validate (i : nat) :
  stable (step_frame i) (run_validate_appliance i).
Proof.
  intros w. unfold run_validate_appliance.
  destruct (_appliances (self w) !! i) as [a |]; [| reflexivity].
  destruct (validate_appliance (_cloud (self w)) (a, trace w)) as [r [a' tr']].
  unfold step_frame, differ_at, cursor_forward. cbn. repeat split.
  - apply length_insert.
  - intros j Hj. apply list_lookup_insert_ne. congruence.
  - lia.
Qed.

Lemma frame_form (i j : nat) (errors : option string) :
  stable (step_frame i) (unreachable_appliance_form j errors).
Proof.
  unfold unreachable_appliance_form, appliance_at, placeholders. framing.
Qed.

Lemma frame_add_entry (i : nat) : stable (step_frame i) _async_add_entry.
Proof.
  unfold _async_add_entry, async_set_unique_id, async_update_entry,
    async_create_task.
  framing.
Qed.

Lemma frame_step_none (i : nat) (step_again : M FlowResult) :
  stable (step_frame i) (async_step_unreachable_appliance_ step_again None).
Proof.
  unfold async_step_unreachable_appliance_, appliances_getitem. framing.
  apply frame_form.
Qed.

Lemma frame_find_next (i : nat) (step_again : M FlowResult) (fuel : nat) :
  stable (step_frame i) step_again ->
  stable (step_frame i) (find_next_unreachable step_again fuel).
Proof.
  intros Hstep. induction fuel as [| fuel IH]; simpl.
  - apply stable_ret; typeclasses eauto.
  - unfold appliances_getitem, appliance_at. framing; assumption.
Qed.

Lemma frame_validate_and_advance (i : nat) (step_again : M FlowResult) :
  stable (step_frame i) step_again ->
  stable (step_frame i) (validate_and_advance step_again i).
Proof.
  intros Hstep. unfold validate_and_advance, appliances_getitem.
  framing;
    first [ apply frame_run_validate
          | apply frame_find_next; assumption
          | apply frame_add_entry
          | apply frame_form ].
Qed.

(** X17: whatever is submitted to the unreachable-appliance step, and
    however the step ends, the list of appliances keeps its length and
    changes at the position of the cursor only, the cursor does not move
    back, and the cloud session is the one the flow had. *)
Theorem unreachable_step_frame (w : World) (user_input : option Dict) (i : nat) :
  py_index (_appliances (self w)) (_appliance_idx (self w)) = Some i ->
  let w' := snd (async_step_unreachable_appliance user_input w) in
  length (_appliances (self w')) = length (_appliances (self w)) /\
  (forall j, j <> i -> _appliances (self w') !! j = _appliances (self w) !! j) /\
  _appliance_idx (self w) <= _appliance_idx (self w') /\
  _cloud (self w') = _cloud (self w).
Proof.
  intros Hidx w'. subst w'.
  cut (step_frame i w (snd (async_step_unreachable_appliance user_input w))).
  { intros ((Hl & Hd) & Hc & Hs). repeat split; assumption. }
  unfold async_step_unreachable_appliance.
  unfold async_step_unreachable_appliance_ at 1.
  run_ok reflexivity.
  run_ok (apply appliances_getitem_run; exact Hidx).
  match goal with
  | |- step_frame i w (snd (?m ?w1)) =>
      transitivity w1;
      [ unfold step_frame, differ_at, cursor_forward; cbn; repeat split; lia
      | cut (stable (step_frame i) m); [intros Hs; apply Hs |] ]
  end.
  destruct user_input as [ui |]; [| apply frame_form].
  unfold appliance_setattr, appliance_at.
  framing.
  apply frame_validate_and_advance. apply frame_step_none.
Qed.

(** X18: the unreachable-appliance step raises [IndexError] when the
    cursor is outside the list of appliances, having reset the cause
    only; a submission without a name raises [KeyError] when the address
    of the appliance at the cursor has already been replaced, by the
    submitted address or by the ignored one, and before anything is
    validated: the cursor and the trace are as they were. *)
Theorem unreachable_step_errors (w : World) (user_input : Dict) :
  (py_index (_appliances (self w)) (_appliance_idx (self w)) = None ->
   forall submission,
     async_step_unreachable_appliance submission w
     = (inl IndexError, with_cause (Some "") w)) /\
  (forall i a0,
     py_index (_appliances (self w)) (_appliance_idx (self w)) = Some i ->
     _appliances (self w) !! i = Some a0 ->
     CONF_NAME user_input = None ->
     let w' := snd (async_step_unreachable_appliance (Some user_input) w) in
     fst (async_step_unreachable_appliance (Some user_input) w)
     = inl (KeyError "name") /\
     _appliances (self w') !! i
     = Some (Lan.set_ip (if truthy (CONF_IP_ADDRESS user_input)
                         then CONF_IP_ADDRESS user_input
                         else Some IGNORED_IP_ADDRESS) a0) /\
     _appliance_idx (self w') = _appliance_idx (self w) /\
     trace w' = trace w).
Proof.
  split.
  - intros Hnone submission.
    unfold async_step_unreachable_appliance, async_step_unreachable_appliance_.
    run_ok reflexivity.
    run_exn (unfold appliances_getitem; run_ok reflexivity;
             cbn [self set_cause _appliances _appliance_idx];
             rewrite Hnone; reflexivity).
    reflexivity.
  - intros i a0 Hidx Ha0 Hname w'. subst w'.
    rewrite (step_submitted_nameless w user_input i a0 Hidx Ha0 Hname).
    cbn [fst snd]. split; [reflexivity |]. split.
    + apply with_appliance_lookup. cbn.
      eapply py_index_lt. exact Hidx.
    + split; reflexivity.
Qed.

End StepFrame.

(** ** The further properties on sample inputs *)

Lemma connect_failure_leaves_session_witness :
  @connect_and_discover (Sample.env []) (with_conf Sample.mistyped Sample.fresh)
  = (inl (CloudAuthenticationError "3101" "wrong password"),
     mkWorld (self (with_conf Sample.mistyped Sample.fresh)) (mkHass [] [])
       [CallConnect "u1" "bad" (app_appkey Sample.NETHOME) 1017]) /\
  @connect_and_discover Sample.offline (with_conf Sample.mistyped Sample.fresh)
  = (inl (FlowException "no_cloud" None),
     mkWorld (self (with_conf Sample.mistyped Sample.fresh)) (mkHass [] [])
       [CallConnect "u1" "bad" (app_appkey Sample.NETHOME) 1017]).
Proof.
  split.
  - apply (proj2 (@connect_failure_leaves_session (Sample.env [])
                    (with_conf Sample.mistyped Sample.fresh) Sample.mistyped
                    "u1" "bad" (app_appkey Sample.NETHOME) 1017
                    eq_refl eq_refl eq_refl eq_refl eq_refl)).
    reflexivity.
  - apply (proj1 (@connect_failure_leaves_session Sample.offline
                    (with_conf Sample.mistyped Sample.fresh) Sample.mistyped
                    "u1" "bad" (app_appkey Sample.NETHOME) 1017
                    eq_refl eq_refl eq_refl eq_refl eq_refl)).
    reflexivity.
Defined.

Lemma connect_missing_key_witness :
  @connect_and_discover (Sample.env []) Sample.fresh
  = (inl (KeyError "username"), Sample.fresh).
Proof.
  apply (proj1 (@connect_missing_key (Sample.env []) Sample.fresh empty_dict eq_refl)).
  reflexivity.
Defined.

Lemma first_without_ip_first_witness :
  first_without_ip 0 [Sample.hall] = None.
Proof.
  apply (proj1 (first_without_ip_first [Sample.hall] 0)).
  repeat constructor.
Defined.

Lemma add_entry_errors_witness :
  fst (@_async_add_entry (Sample.env []) Sample.fresh) = inl (KeyError "username") /\
  fst (@_async_add_entry (Sample.env []) Sample.unconfigured)
  = inl (FlowException "unexpected_state" None).
Proof.
  split.
  - rewrite (proj2 (@add_entry_errors (Sample.env []) Sample.fresh)
               empty_dict eq_refl eq_refl).
    reflexivity.
  - rewrite (proj1 (@add_entry_errors (Sample.env []) Sample.unconfigured) eq_refl).
    reflexivity.
Defined.

Lemma reconciler_idempotent_witness :
  let E := Sample.env [] in
  fst (_async_add_entry (snd (_async_add_entry Sample.reauthenticating)))
  = fst (_async_add_entry Sample.reauthenticating).
Proof.
  intros E.
  destruct (@reconciler_idempotent E Sample.reauthenticating
              (set_CONF_APPID 1017
                 (set_CONF_APPKEY (app_appkey Sample.NETHOME)
                    (Sample.credentials "u1" "p1" "NetHome" false)))
              "u1" eq_refl eq_refl) as (Hr & _ & _).
  exact Hr.
Defined.

Lemma devices_keep_order_witness :
  let E := Sample.env [] in
  exists devices,
    CONF_DEVICES <$> _conf (self (snd (_async_add_entry Sample.reauthenticating)))
    = Some (Some devices) /\
    (length devices <= 3)%nat.
Proof.
  intros E.
  destruct (@devices_keep_order E Sample.reauthenticating
              (set_CONF_APPID 1017
                 (set_CONF_APPKEY (app_appkey Sample.NETHOME)
                    (Sample.credentials "u1" "p1" "NetHome" false)))
              "u1" eq_refl eq_refl) as (devices & Hconf & _ & Hlen & _).
  exists devices. split; [rewrite Hconf; reflexivity | exact Hlen].
Defined.

Lemma user_step_single_instance_witness :
  fst (@async_step_user (Sample.env [])
         (Some (Sample.credentials "u1" "p1" "NetHome" false))
         Sample.reauthenticating)
  = inr (Abort "single_instance_allowed").
Proof.
  rewrite (@user_step_single_instance (Sample.env []) Sample.reauthenticating
             (Some (Sample.credentials "u1" "p1" "NetHome" false)));
    [reflexivity | discriminate].
Defined.

Lemma user_step_cloud_refusal_witness :
  let E := Sample.env [] in
  fst (async_step_user (Some (Sample.credentials "u1" "bad" "NetHome" false))
         Sample.fresh)
  = inr (ShowForm "user" (Sample.credentials "u1" "bad" "NetHome" false)
           (mkPlaceholders "3101 - wrong password" "Midea Dehumidifier (LAN)"
              None None)
           (Some "invalid_auth")).
Proof.
  intros E.
  assert (Hres : resolved (Sample.credentials "u1" "bad" "NetHome" false)
                   (app_appkey Sample.NETHOME) 1017).
  { right. exists "NetHome", Sample.NETHOME.
    repeat split; first [discriminate | vm_compute; reflexivity]. }
  destruct (@user_step_cloud_refusal E Sample.fresh
              (Sample.credentials "u1" "bad" "NetHome" false)
              "u1" "bad" (app_appkey Sample.NETHOME) 1017
              eq_refl eq_refl eq_refl Hres eq_refl) as [[Hauth _] _].
  apply (Hauth "3101" "wrong password"). reflexivity.
Defined.

Lemma user_step_opens_advanced_witness :
  let E := Sample.env [] in
  fst (async_step_user (Some (Sample.credentials "u1" "p1" "MideaAir" true))
         Sample.fresh)
  = inr (ShowForm "advanced_options"
           (Sample.advanced_range_input "u1" "p1" (app_appkey Sample.NETHOME) 1017 "")
           (mkPlaceholders "" "Midea Dehumidifier (LAN)" None None) None) /\
  session_app
    (snd (async_step_user (Some (Sample.credentials "u1" "p1" "MideaAir" true))
            Sample.fresh))
  = Some (Some (app_appkey Sample.MIDEAAIR), Some 1117).
Proof.
  intros E.
  assert (Hres : resolved (Sample.credentials "u1" "p1" "MideaAir" true)
                   (app_appkey Sample.MIDEAAIR) 1117).
  { right. exists "MideaAir", Sample.MIDEAAIR.
    repeat split; first [discriminate | vm_compute; reflexivity]. }
  rewrite (@user_step_opens_advanced E Sample.fresh
             (Sample.credentials "u1" "p1" "MideaAir" true)
             (app_appkey Sample.MIDEAAIR) 1117 eq_refl Hres eq_refl).
  split; reflexivity.
Defined.

Lemma advanced_invalid_range_witness :
  let E := Sample.env [] in
  let user_input :=
    Sample.advanced_range_input "u1" "p1" "my-app-key" 7 "300.1.1.0/24" in
  let r := async_step_advanced_options (Some user_input) Sample.in_advanced in
  fst r
  = inr (ShowForm "advanced_options" user_input
           (mkPlaceholders "300.1.1.0/24" "Midea Dehumidifier (LAN)" None None)
           (Some "invalid_ip_range")) /\
  session_app (snd r) = Some (Some "my-app-key", Some 7) /\
  trace (snd r) = [].
Proof.
  intros E user_input r. subst r.
  rewrite (@advanced_invalid_range E Sample.in_advanced
             (set_CONF_APPID 1017
                (set_CONF_APPKEY (app_appkey Sample.NETHOME)
                   (Sample.credentials "u1" "p1" "NetHome" true)))
             user_input "my-app-key" 7 "300.1.1.0/24"
             eq_refl eq_refl eq_refl eq_refl ltac:(discriminate) eq_refl).
  repeat split.
Defined.

Lemma advanced_account_not_read_witness :
  let E := Sample.env [Sample.hall] in
  snd (async_step_advanced_options
         (Some (Sample.advanced_input "u1" "p1" (Some "my-app-key") (Some 7)))
         Sample.in_advanced)
  = snd (async_step_advanced_options
           (Some (Sample.advanced_input "someone" "else" (Some "my-app-key") (Some 7)))
           Sample.in_advanced).
Proof.
  intros E.
  apply (proj1 (@advanced_account_not_read E Sample.in_advanced
                  (Sample.advanced_input "u1" "p1" (Some "my-app-key") (Some 7))
                  (Sample.advanced_input "someone" "else" (Some "my-app-key") (Some 7))
                  eq_refl eq_refl eq_refl)).
Defined.

Lemma advanced_range_searched_witness :
  let E := Sample.env [Sample.hall] in
  let user_input :=
    Sample.advanced_range_input "someone" "else" "my-app-key" 7 "192.168.1.0/24" in
  let w' := snd (async_step_advanced_options (Some user_input) Sample.in_advanced) in
  _appliances (self w') = [Sample.hall] /\
  exists rest,
    trace w' = CallConnect "u1" "p1" "my-app-key" 7
               :: CallFind (CloudSession 1) ["192.168.1.0/24"] :: rest.
Proof.
  intros E user_input w'.
  destruct (@advanced_range_searched E Sample.in_advanced
              (set_CONF_APPID 1017
                 (set_CONF_APPKEY (app_appkey Sample.NETHOME)
                    (Sample.credentials "u1" "p1" "NetHome" true)))
              user_input "u1" "p1" "my-app-key" 7 "192.168.1.0/24" (CloudSession 1)
              eq_refl eq_refl eq_refl eq_refl eq_refl eq_refl
              ltac:(discriminate) eq_refl eq_refl)
    as ((rest & Htrace) & Happs & _).
  split; [exact Happs |]. exists rest. exact Htrace.
Defined.

Lemma unreachable_step_frame_witness :
  let E := Sample.env [Sample.hall; Sample.cellar; Sample.attic] in
  let w := Sample.after_discovery [Sample.hall; Sample.cellar; Sample.attic] in
  let w' := snd (async_step_unreachable_appliance
                   (Some (Sample.appliance_input false (Some "192.168.1.21") "Cellar"))
                   w) in
  _appliances (self w') !! 0%nat = Some Sample.hall /\
  _appliances (self w') !! 2%nat = Some Sample.attic /\
  1 <= _appliance_idx (self w').
Proof.
  intros E w w'.
  destruct (@unreachable_step_frame E w
              (Some (Sample.appliance_input false (Some "192.168.1.21") "Cellar"))
              1%nat eq_refl) as (_ & Hothers & Hcursor & _).
  split; [| split].
  - apply (Hothers 0%nat). discriminate.
  - apply (Hothers 2%nat). discriminate.
  - exact Hcursor.
Defined.

Lemma unreachable_step_errors_witness :
  let E := Sample.env [Sample.hall; Sample.cellar; Sample.attic] in
  let w := Sample.after_discovery [Sample.hall; Sample.cellar; Sample.attic] in
  let nameless :=
    mkDict None None None None None None None (Some false) (Some "10.0.0.5")
      None None None None in
  fst (async_step_unreachable_appliance None Sample.fresh) = inl IndexError /\
  fst (async_step_unreachable_appliance (Some nameless) w) = inl (KeyError "name") /\
  Lan.ip <$> (_appliances
                (self (snd (async_step_unreachable_appliance (Some nameless) w)))
              !! 1%nat)
  = Some (Some "10.0.0.5").
Proof.
  intros E w nameless.
  split.
  - rewrite (proj1 (@unreachable_step_errors E Sample.fresh nameless) eq_refl None).
    reflexivity.
  - destruct (proj2 (@unreachable_step_errors E w nameless) 1%nat Sample.cellar
                eq_refl eq_refl eq_refl) as (Hr & Ha & _).
    split; [exact Hr |]. rewrite Ha. reflexivity.
Defined.
